(** * GenAI Service Desk: the retrieval-augmented generation pipeline

    A shallow embedding of [core/rag_pipeline.py] (class [ServiceDeskRAG])
    and the properties of its retrieval and generation steps.

    Python values are modelled as follows.
    - [str] is [string]; the order used by [sorted] on file names is the
      order of code points, which on UTF-8 bytes is [String.leb].
    - a Python [list] is a [list]; [l[i]] is [py_getitem], with Python's
      negative indices and [IndexError].
    - a parsed JSON value (and Python's [None]) is [json].
    - the knowledge-base directory is a finite map from file name to text.
    - an exception is a value of [exn]; a computation that may raise
      returns a [result].
    - the effects of a query (HTTP posts and sleeps) are recorded in a log
      threaded through the monad [M]. *)

From Stdlib Require Import ZArith Lia List Bool String Ascii Sorted.
From stdpp Require Import base option list gmap strings sorting.
Import ListNotations.

Set Warnings "-register-all".

Local Open Scope string_scope.
Local Open Scope list_scope.

(** ** Exceptions and results *)

Inductive exn : Type :=
  | AttributeError
  | IndexError
  | KeyError
  | TypeError
  | ValueError
  | OverflowError
  | AssertionError
  | FileNotFoundError
  | JSONDecodeError
  | RequestException.

Inductive result (A : Type) : Type :=
  | Ok (a : A)
  | Raise (e : exn).

Arguments Ok {A} a.
Arguments Raise {A} e.

Definition rbind {A B : Type} (r : result A) (k : A -> result B) : result B :=
  match r with
  | Ok a => k a
  | Raise e => Raise e
  end.

(** A list comprehension [[f(i) for i in l]] whose body may raise: the
    first exception, left to right, aborts the comprehension. *)
Fixpoint comprehension {A B : Type} (f : A -> result B) (l : list A)
  : result (list B) :=
  match l with
  | [] => Ok []
  | x :: l' =>
      match f x with
      | Raise e => Raise e
      | Ok y =>
          match comprehension f l' with
          | Raise e => Raise e
          | Ok ys => Ok (y :: ys)
          end
      end
  end.

(** ** Python sequences *)

(** [l[i]] on a list: indices [0 .. len-1] count from the front, indices
    [-len .. -1] count from the back, anything else is an [IndexError]. *)
Definition py_getitem {A : Type} (l : list A) (i : Z) : result A :=
  let n := Z.of_nat (length l) in
  let j := if (i <? 0)%Z then (i + n)%Z else i in
  if ((0 <=? j)%Z && (j <? n)%Z)%bool then
    match l !! Z.to_nat j with
    | Some x => Ok x
    | None => Raise IndexError
    end
  else Raise IndexError.

(** [sorted(l)]: ascending, stable.  Written as an insertion sort; for a
    total order every stable sort returns the same list. *)
Fixpoint insert_by {A : Type} (le : A -> A -> bool) (x : A) (l : list A)
  : list A :=
  match l with
  | [] => [x]
  | y :: l' => if le x y then x :: y :: l' else y :: insert_by le x l'
  end.

Definition sorted_by {A : Type} (le : A -> A -> bool) (l : list A) : list A :=
  fold_right (insert_by le) [] l.

Definition sorted (l : list string) : list string := sorted_by String.leb l.

(** [s.endswith(suffix)] *)
Definition endswith (s suffix : string) : bool :=
  let n := String.length s in
  let m := String.length suffix in
  (m <=? n)%nat && String.eqb (String.substring (n - m) m s) suffix.

(** [sep.join(parts)] *)
Fixpoint join (sep : string) (parts : list string) : string :=
  match parts with
  | [] => ""
  | [p] => p
  | p :: rest => p ++ sep ++ join sep rest
  end.

(** ** JSON values, as [response.json()] returns them *)

(** [JNull] is Python's [None].  Numbers are integers here; a float
    behaves like an integer for everything [query] does with a value
    (truth value, no [get], not subscriptable).  A [JObj] holds the items
    of the parsed [dict], whose keys are distinct. *)
Inductive json : Type :=
  | JNull
  | JBool (b : bool)
  | JNum (z : Z)
  | JStr (s : string)
  | JArr (items : list json)
  | JObj (items : list (string * json)).

(** The truth value Python gives a value in [if v] and [a and b]. *)
Definition truthy (v : json) : bool :=
  match v with
  | JNull => false
  | JBool b => b
  | JNum z => negb (z =? 0)%Z
  | JStr s => negb (String.eqb s "")
  | JArr items => match items with [] => false | _ => true end
  | JObj items => match items with [] => false | _ => true end
  end.

Fixpoint assoc (key : string) (items : list (string * json)) : option json :=
  match items with
  | [] => None
  | (k, v) :: rest => if String.eqb k key then Some v else assoc key rest
  end.

(** [v.get(key)]: only a [dict] has the method. *)
Definition py_get (v : json) (key : string) : result json :=
  match v with
  | JObj items =>
      match assoc key items with
      | Some x => Ok x
      | None => Ok JNull
      end
  | _ => Raise AttributeError
  end.

(** [v[key]] with a string key. *)
Definition subscript_str (v : json) (key : string) : result json :=
  match v with
  | JObj items =>
      match assoc key items with
      | Some x => Ok x
      | None => Raise KeyError
      end
  | _ => Raise TypeError
  end.

(** [v[0]]: the first item of a list, the first character of a string;
    a [dict] parsed from JSON has no integer key. *)
Definition subscript_0 (v : json) : result json :=
  match v with
  | JArr items => py_getitem items 0
  | JStr s =>
      match s with
      | EmptyString => Raise IndexError
      | String c _ => Ok (JStr (String c EmptyString))
      end
  | JObj _ => Raise KeyError
  | _ => Raise TypeError
  end.

(** ** The embedding model and the vector index *)

(** The sentence-embedding model and the distance of the index are used
    as black boxes: [encode] is the vector of one text, [l2_sqr] the
    squared Euclidean distance the index computes, [score_ltb] the
    comparison of two distances.  Nothing is assumed about them. *)
Class Embedder : Type := {
  vec : Type;
  score : Type;
  encode : string -> vec;
  l2_sqr : vec -> vec -> score;
  score_ltb : score -> score -> bool
}.

Section Pipeline.

Context {E : Embedder}.

(** [requests.exceptions.JSONDecodeError], raised by [response.json()] on
    a body that is not JSON, derives from [RequestException] since
    requests 2.27 and from [ValueError] only before: the flag says which. *)
Variable json_error_is_request_exception : bool.

(** [faiss.IndexFlatL2]: the stored vectors, row [i] being the [i]-th
    vector added. *)
Record IndexFlatL2 : Type := { xb : list vec }.

Definition ntotal (ix : IndexFlatL2) : nat := length (xb ix).

(** [index.add(vectors)] *)
Definition index_add (ix : IndexFlatL2) (vectors : list vec) : IndexFlatL2 :=
  {| xb := xb ix ++ vectors |}.

(** The rows of the index with their distance to [xq], nearest first,
    equal distances by smaller row. *)
Definition ranked_rows (ix : IndexFlatL2) (xq : vec) : list (nat * score) :=
  sorted_by (fun p q => negb (score_ltb (snd q) (snd p)))
    (imap (fun i v => (i, l2_sqr xq v)) (xb ix)).

(** [index.search(xq, k)] for one query vector: the row [indices[0]] of
    the label matrix.  The library (not part of this repository) asserts
    [k > 0] and always fills [k] labels: the [min k ntotal] nearest rows
    first, then the label [-1] for every missing neighbour. *)
Definition search (ix : IndexFlatL2) (xq : vec) (k : Z) : result (list Z) :=
  if (k <=? 0)%Z then Raise AssertionError
  else
    let hits := take (Z.to_nat k) (ranked_rows ix xq) in
    Ok (map (fun p => Z.of_nat (fst p)) hits
          ++ replicate (Z.to_nat k - length hits) (-1)%Z).

(** ** The file system *)

(** The knowledge-base directory (absent, or a map from file name to the
    text of the file) and the two persisted artifacts.  Every entry of the
    directory is a text file that can be opened and decoded, and an
    artifact that is present can be read back: an entry that cannot be
    read (a sub-directory, bytes that are not UTF-8, a missing permission)
    and a damaged artifact are outside the model, so nothing below says
    that the loader or the construction always returns. *)
Record filesystem : Type := {
  knowledge_base : option (gmap string string);
  vector_store_file : option IndexFlatL2;
  documents_file : option (list string)
}.

(** [os.listdir(KNOWLEDGE_BASE_DIR)] *)
Definition listdir (fs : filesystem) : result (list string) :=
  match knowledge_base fs with
  | None => Raise FileNotFoundError
  | Some dir => Ok (map fst (map_to_list dir))
  end.

(** [open(os.path.join(KNOWLEDGE_BASE_DIR, filename)).read()] *)
Definition read_file (fs : filesystem) (filename : string) : result string :=
  match knowledge_base fs with
  | None => Raise FileNotFoundError
  | Some dir =>
      match dir !! filename with
      | Some text => Ok text
      | None => Raise FileNotFoundError
      end
  end.

(** [sorted([f for f in os.listdir(KNOWLEDGE_BASE_DIR) if f.endswith(".txt")])] *)
Definition sorted_txt_listing (fs : filesystem) : result (list string) :=
  match listdir fs with
  | Raise e => Raise e
  | Ok entries => Ok (sorted (List.filter (fun f => endswith f ".txt") entries))
  end.

(** ** The pipeline object *)

(** The attributes of a [ServiceDeskRAG] object.  [index] is [None] while
    the attribute has never been assigned (reading it raises
    [AttributeError]), [Some None] when it holds Python's [None], and
    [Some (Some ix)] when it holds an index. *)
Record ServiceDeskRAG : Type := {
  documents : list string;
  index : option (option IndexFlatL2)
}.

Definition _load_documents (fs : filesystem) : result (list string) :=
  match sorted_txt_listing fs with
  | Raise e => Raise e
  | Ok filenames => comprehension (read_file fs) filenames
  end.

(** [_build_vector_store], run on an object whose attributes are [self];
    returns the object and the file system after the two writes. *)
Definition _build_vector_store (self : ServiceDeskRAG) (fs : filesystem)
  : result (ServiceDeskRAG * filesystem) :=
  match _load_documents fs with
  | Raise e => Raise e
  | Ok docs =>
      let self := {| documents := docs; index := index self |} in
      match docs with
      | [] => Ok (self, fs)
      | _ :: _ =>
          let embeddings := map encode docs in
          let ix := index_add {| xb := [] |} embeddings in
          Ok ({| documents := docs; index := Some (Some ix) |},
              {| knowledge_base := knowledge_base fs;
                 vector_store_file := Some ix;
                 documents_file := Some docs |})
      end
  end.

Definition __init__ (fs : filesystem) : result (ServiceDeskRAG * filesystem) :=
  let self := {| documents := []; index := None |} in
  match vector_store_file fs, documents_file fs with
  | Some ix, Some docs =>
      Ok ({| documents := docs; index := Some (Some ix) |}, fs)
  | _, _ => _build_vector_store self fs
  end.

(** The two comprehensions of [_retrieve_context] over the labels
    [indices[0]] that the search returned. *)
Definition retrieved_chunks (docs : list string) (labels : list Z)
  : result (list string) :=
  comprehension (py_getitem docs) labels.

Definition source_files (source_filenames : list string) (labels : list Z)
  : result (list string) :=
  comprehension (py_getitem source_filenames)
    (List.filter (fun i => (i <? Z.of_nat (length source_filenames))%Z) labels).

Definition _retrieve_context (self : ServiceDeskRAG) (fs : filesystem)
    (query_text : string) (k : Z) : result (list string * list string) :=
  match index self with
  | None => Raise AttributeError
  | Some None => Ok ([], [])
  | Some (Some ix) =>
      let query_embedding := encode query_text in
      match search ix query_embedding k with
      | Raise e => Raise e
      | Ok labels =>
          match retrieved_chunks (documents self) labels with
          | Raise e => Raise e
          | Ok chunks =>
              match sorted_txt_listing fs with
              | Raise e => Raise e
              | Ok source_filenames =>
                  match source_files source_filenames labels with
                  | Raise e => Raise e
                  | Ok sources => Ok (chunks, sources)
                  end
              end
          end
      end
  end.

(** ** Effects of the generation step *)

(** What the log of a call records: every [requests.post] (whatever its
    outcome) and every [time.sleep]. *)
Inductive event : Type :=
  | EvPost (payload : json)
  | EvSleep (seconds : Z).

(** What one [requests.post] meets at the remote endpoint: the transport
    fails ([RequestException]), or a response arrives, with a status code
    and a body that is JSON ([Some]) or not ([None]). *)
Inductive attempt_outcome : Type :=
  | ConnectionFailed
  | HttpResponse (status : Z) (body : option json).

Record response : Type := { status_code : Z; body : option json }.

(** The behaviour of the endpoint during one query: the outcome of the
    [n]-th post, counted from 0. *)
Definition endpoint : Type := nat -> attempt_outcome.

(** A computation that may raise and that extends the log; the log
    survives an exception. *)
Definition M (A : Type) : Type := list event -> result A * list event.

#[local] Instance M_ret : MRet M := fun A a log => (Ok a, log).

#[local] Instance M_bind : MBind M := fun A B k m log =>
  match m log with
  | (Ok a, log') => k a log'
  | (Raise e, log') => (Raise e, log')
  end.

Definition raise {A : Type} (e : exn) : M A := fun log => (Raise e, log).

Definition lift {A : Type} (r : result A) : M A := fun log => (r, log).

(** [try: body  except <handled>: handler] *)
Definition try_except {A : Type} (body : M A) (handled : exn -> bool)
    (handler : M A) : M A := fun log =>
  match body log with
  | (Ok a, log') => (Ok a, log')
  | (Raise e, log') => if handled e then handler log' else (Raise e, log')
  end.

Definition is_post (ev : event) : bool :=
  match ev with EvPost _ => true | EvSleep _ => false end.

(** The number of posts made so far. *)
Definition posts (log : list event) : nat := length (List.filter is_post log).

(** The delays slept so far, in order. *)
Definition sleeps (log : list event) : list Z :=
  omap (fun ev => match ev with EvSleep d => Some d | EvPost _ => None end) log.

Definition requests_post (ep : endpoint) (payload : json) : M response :=
  fun log =>
    let log' := log ++ [EvPost payload] in
    match ep (posts log) with
    | ConnectionFailed => (Raise RequestException, log')
    | HttpResponse st b => (Ok {| status_code := st; body := b |}, log')
    end.

(** [response.json()] *)
Definition response_json (r : response) : M json :=
  match body r with
  | Some j => mret j
  | None => raise JSONDecodeError
  end.

(** The longest sleep [time.sleep] accepts, in seconds: the interpreter
    keeps the length in nanoseconds in a signed 64-bit integer. *)
Definition sleep_limit : Z := 9223372036.

(** What [time.sleep(seconds)] raises instead of sleeping: [ValueError]
    for a negative length, [OverflowError] for one beyond the limit. *)
Definition sleep_error (seconds : Z) : option exn :=
  if (seconds <? 0)%Z then Some ValueError
  else if (sleep_limit <? seconds)%Z then Some OverflowError
  else None.

(** [time.sleep(seconds)] *)
Definition time_sleep (seconds : Z) : M unit := fun log =>
  match sleep_error seconds with
  | Some e => (Raise e, log)
  | None => (Ok tt, log ++ [EvSleep seconds])
  end.

(** [except requests.exceptions.RequestException] *)
Definition is_RequestException (e : exn) : bool :=
  match e with
  | RequestException => true
  | JSONDecodeError => json_error_is_request_exception
  | _ => false
  end.

(** [except Exception] *)
Definition is_Exception (e : exn) : bool := true.

(** ** The generation client *)

(** The [try] statement of one loop iteration: [Some j] when the
    iteration executes [return response.json()], [None] when control
    reaches the statements after the [try]. *)
Definition attempt (ep : endpoint) (payload : json) : M (option json) :=
  try_except
    (response ← requests_post ep payload;
     if (status_code response =? 200)%Z
     then j ← response_json response; mret (Some j)
     else mret None)
    is_RequestException
    (mret None).

(** [for i in range(iterations): ...] followed by [return None]. *)
Fixpoint backoff_loop (ep : endpoint) (payload : json) (iterations : nat)
    (delay : Z) : M json :=
  match iterations with
  | O => mret JNull
  | S n =>
      r ← attempt ep payload;
      match r with
      | Some j => mret j
      | None =>
          _ ← time_sleep delay;
          backoff_loop ep payload n (delay * 2)%Z
      end
  end.

Definition _call_gemini_with_backoff (ep : endpoint) (payload : json)
    (retries : Z) (delay : Z) : M json :=
  backoff_loop ep payload (Z.to_nat retries) delay.

Definition default_retries : Z := 5.
Definition default_delay : Z := 2.

(** ** The query *)

Definition no_information : string :=
  "I'm sorry, I could not find any relevant information.".

Definition invalid_response : string :=
  "I'm sorry, I received an invalid response from the AI model.".

Definition generation_error : string :=
  "I'm sorry, I encountered an error while generating a response.".

Definition system_prompt : string :=
  "You are a helpful and professional IT Service Desk assistant."
  ++ "You must answer the user's question *only* using the context provided."
  ++ "Do not make up information or answer questions not found in the context."
  ++ "If the context does not contain the answer, you MUST say:"
  ++ "'I'm sorry, my knowledge base does not have the information to answer this question. "
  ++ "Please contact a human IT support agent.'".

Definition nl : string := String "010"%char EmptyString.

Definition indent : string := "        ".

Definition user_prompt (context_str user_question : string) : string :=
  nl ++ indent ++ "CONTEXT:" ++ nl
     ++ indent ++ "---" ++ nl
     ++ indent ++ context_str ++ nl
     ++ indent ++ "---" ++ nl
     ++ nl
     ++ indent ++ "USER QUESTION:" ++ nl
     ++ indent ++ user_question ++ nl
     ++ indent.

Definition text_parts (text : string) : json :=
  JObj [("parts", JArr [JObj [("text", JStr text)]])].

Definition make_payload (context_chunks : list string) (user_question : string)
  : json :=
  let context_str := join (nl ++ nl ++ "---" ++ nl ++ nl) context_chunks in
  JObj [("systemInstruction", text_parts system_prompt);
        ("contents", JArr [text_parts (user_prompt context_str user_question)])].

(** [response and response.get("candidates")] *)
Definition candidates_of (response : json) : result json :=
  if truthy response then py_get response "candidates" else Ok response.

(** [response["candidates"][0]["content"]["parts"][0]["text"]] *)
Definition first_candidate_text (response : json) : result json :=
  rbind (subscript_str response "candidates") (fun cands =>
  rbind (subscript_0 cands) (fun cand =>
  rbind (subscript_str cand "content") (fun content =>
  rbind (subscript_str content "parts") (fun parts =>
  rbind (subscript_0 parts) (fun part =>
  subscript_str part "text"))))).

(** The [if response and response.get("candidates")] statement: what
    [query] returns for the value the client handed back. *)
Definition answer_of (response : json) (source_files : list string)
  : result (json * list string) :=
  rbind (candidates_of response) (fun cands =>
  if truthy cands then
    rbind (first_candidate_text response) (fun answer =>
    Ok (answer, source_files))
  else Ok (JStr invalid_response, [])).

(** The statements of [query] under "3. Generate", inside the [try]. *)
Definition generate (ep : endpoint) (payload : json)
    (source_files : list string) : M (json * list string) :=
  response ← _call_gemini_with_backoff ep payload default_retries default_delay;
  lift (answer_of response source_files).

Definition query (self : ServiceDeskRAG) (fs : filesystem) (ep : endpoint)
    (user_question : string) : M (json * list string) :=
  '(context_chunks, source_files) ← lift (_retrieve_context self fs user_question 1);
  match context_chunks with
  | [] => mret (JStr no_information, [])
  | _ :: _ =>
      let payload := make_payload context_chunks user_question in
      try_except (generate ep payload source_files)
        is_Exception
        (mret (JStr generation_error, []))
  end.

End Pipeline.

(** ** The chat page ([app.py]) *)

(** One entry of [st.session_state.messages]: a role and a content.  The
    content of an assistant entry is whatever [query] returned as answer. *)
Record message : Type := { role : string; content : json }.

(** What the page draws inside a [st.chat_message(role)] block. *)
Inductive widget : Type :=
  | Markdown (role : string) (text : json)
  | Subheader (role : string) (text : string)
  | Caption (role : string) (text : string).

(** The message list of the session and what was drawn in this run of the
    script. *)
Record page : Type := { messages : list message; screen : list widget }.

Definition greeting : message :=
  {| role := "assistant";
     content := JStr "Hi! How can I help you with your IT questions today?" |}.

(** [if "messages" not in st.session_state: ...] followed by the loop that
    displays the chat messages: [session] is the list kept from the
    previous run, if any. *)
Definition display_history (session : option (list message)) : page :=
  let msgs := match session with
              | None => [greeting]
              | Some msgs => msgs
              end in
  {| messages := msgs;
     screen := map (fun m => Markdown (role m) (content m)) msgs |}.

(** [for source_file in set(sources): st.caption(...)]: one caption per
    distinct source, in the order the set yields them. *)
Definition source_captions (sources : list string) : list widget :=
  map (fun f => Caption "assistant" ("Source: `" ++ f ++ "`"))
      (elements (list_to_set sources : gset string)).

(** What the assistant block draws for a returned pair. *)
Definition display_answer (answer : json) (sources : list string) : list widget :=
  Markdown "assistant" answer
  :: match sources with
     | [] => []
     | _ :: _ =>
         Markdown "assistant" (JStr "---")
         :: Subheader "assistant" "Sources Used:"
         :: source_captions sources
     end.

(** The block under "Handle user input": [prompt] is what
    [st.chat_input] returned ([None] when nothing was submitted).  An
    exception of [query] ends the run where it is raised. *)
Definition handle_user_input {E : Embedder} (flag : bool)
    (rag_pipeline : ServiceDeskRAG) (fs : filesystem) (ep : endpoint)
    (prompt : option string) (pg : page) (log : list event)
  : result unit * page * list event :=
  match prompt with
  | None => (Ok tt, pg, log)
  | Some p =>
      if String.eqb p "" then (Ok tt, pg, log)
      else
        let pg1 :=
          {| messages := messages pg ++ [{| role := "user"; content := JStr p |}];
             screen := screen pg ++ [Markdown "user" (JStr p)] |} in
        match query flag rag_pipeline fs ep p log with
        | (Raise e, log') => (Raise e, pg1, log')
        | (Ok (answer, sources), log') =>
            (Ok tt,
             {| messages := messages pg1
                            ++ [{| role := "assistant"; content := answer |}];
                screen := screen pg1 ++ display_answer answer sources |},
             log')
        end
  end.

(** One run of the script from the chat history on, for a pipeline that
    was loaded. *)
Definition run_page {E : Embedder} (flag : bool) (rag_pipeline : ServiceDeskRAG)
    (fs : filesystem) (ep : endpoint) (session : option (list message))
    (prompt : option string) : result unit * page * list event :=
  handle_user_input flag rag_pipeline fs ep prompt (display_history session) [].

(** ** Concrete data used by the examples *)

(** A one-dimensional embedding: a text is embedded as its length. *)
Definition length_embedder : Embedder :=
  {| vec := Z;
     score := Z;
     encode := fun s => Z.of_nat (String.length s);
     l2_sqr := fun a b => ((a - b) * (a - b))%Z;
     score_ltb := Z.ltb |}.

(** A response body of the expected shape, carrying [text]. *)
Definition candidate_body (text : string) : json :=
  JObj [("candidates",
         JArr [JObj [("content", JObj [("parts", JArr [JObj [("text", JStr text)]])])]])].

(** An endpoint that fails twice (transport error, then a 503) and then
    answers. *)
Definition flaky_endpoint : endpoint := fun n =>
  match n with
  | 0 => ConnectionFailed
  | 1 => HttpResponse 503 None
  | _ => HttpResponse 200 (Some (candidate_body "Restart the VPN client."))
  end.

(** An endpoint that answers every post with status 201 and an empty
    JSON object. *)
Definition created_endpoint : endpoint := fun _ => HttpResponse 201 (Some (JObj [])).

(** An endpoint that answers 200 with a body without candidates. *)
Definition no_candidates_endpoint : endpoint := fun _ => HttpResponse 200 (Some (JObj [("error", JStr "blocked")])).

(** An endpoint that is down. *)
Definition dead_endpoint : endpoint := fun _ => ConnectionFailed.

Section Examples.

Context {E : Embedder}.

(** A directory without any [.txt] file, and no persisted artifact. *)
Definition empty_corpus : filesystem :=
  {| knowledge_base := Some ({["README.md" := "put the articles here"]} : gmap string string);
     vector_store_file := None;
     documents_file := None |}.

(** A corpus of one article. *)
Definition one_article : filesystem :=
  {| knowledge_base := Some ({["vpn.txt" := "Restart the VPN client."]} : gmap string string);
     vector_store_file := None;
     documents_file := None |}.

(** A corpus of two articles, then the same directory after a third file
    was added, and after one was removed. *)
Definition two_articles_dir : gmap string string :=
  <["vpn.txt" := "Restart the VPN client."]>
    {["printer.txt" := "Install the printer driver from the IT portal."]}.

Definition two_articles : filesystem :=
  {| knowledge_base := Some two_articles_dir;
     vector_store_file := None;
     documents_file := None |}.

Definition two_articles_index : IndexFlatL2 :=
  {| xb := [encode "Install the printer driver from the IT portal.";
            encode "Restart the VPN client."] |}.

Definition two_articles_pipeline : ServiceDeskRAG :=
  {| documents := ["Install the printer driver from the IT portal.";
                   "Restart the VPN client."];
     index := Some (Some two_articles_index) |}.

Definition persisted (dir : option (gmap string string)) : filesystem :=
  {| knowledge_base := dir;
     vector_store_file := Some two_articles_index;
     documents_file := Some (documents two_articles_pipeline) |}.

Definition article_added : filesystem :=
  persisted (Some (<["password.txt" := "Use the self-service portal."]> two_articles_dir)).

Definition article_removed : filesystem :=
  persisted (Some (delete "vpn.txt" two_articles_dir)).

Definition directory_missing : filesystem := persisted None.

(** The directory after an article that sorts last was added. *)
Definition last_article_added : filesystem :=
  persisted (Some (<["wifi.txt" := "Forget the network and join it again."]>
                     two_articles_dir)).

(** An object whose [index] attribute holds [None]. *)
Definition index_is_None : ServiceDeskRAG :=
  {| documents := []; index := Some None |}.

End Examples.

(** ** Vocabulary of the statements *)

(** The position of the list that the subscript [i] denotes. *)
Definition position (n : nat) (i : Z) : nat :=
  Z.to_nat (if (i <? 0)%Z then (i + Z.of_nat n)%Z else i).

(** A status code of the 2xx class. *)
Definition is_2xx (status : Z) : bool := (200 <=? status)%Z && (status <? 300)%Z.


(** What the [try] statement of [attempt] does with an outcome, read off
    the code: [Ok (Some j)] is the [return], [Ok None] falls through to
    the sleep. *)
Definition attempt_result (json_error_is_request_exception : bool)
    (o : attempt_outcome) : result (option json) :=
  match o with
  | ConnectionFailed => Ok None
  | HttpResponse st b =>
      if (st =? 200)%Z then
        match b with
        | Some j => Ok (Some j)
        | None =>
            if json_error_is_request_exception then Ok None
            else Raise JSONDecodeError
        end
      else Ok None
  end.

(** The log of [n] failed attempts in a row, starting with delay [d]:
    each post is followed by a sleep, and the delay doubles. *)
Fixpoint backoff_trace (payload : json) (n : nat) (d : Z) : list event :=
  match n with
  | O => []
  | S n' => EvPost payload :: EvSleep d :: backoff_trace payload n' (d * 2)%Z
  end.

(** The pair [query] returns once the client has come back with [r]. *)
Definition outcome_of (r : result json) (source_files : list string)
  : json * list string :=
  match rbind r (fun j => answer_of j source_files) with
  | Ok p => p
  | Raise _ => (JStr generation_error, [])
  end.

(** The generation succeeded with [answer]: the client returned a body
    whose candidates are there and whose first candidate has a text. *)
Definition succeeded (r : result json) (answer : json) : Prop :=
  exists j cands,
    r = Ok j /\ candidates_of j = Ok cands /\ truthy cands = true
    /\ first_candidate_text j = Ok answer.

(** The seconds slept in a log, added up. *)
Definition total_sleep (log : list event) : Z :=
  foldr Z.add 0%Z (sleeps log).

(** The text of the user turn of a payload, read as the endpoint reads
    it: [payload["contents"][0]["parts"][0]["text"]]. *)
Definition user_text (payload : json) : result json :=
  rbind (subscript_str payload "contents") (fun contents =>
  rbind (subscript_0 contents) (fun turn =>
  rbind (subscript_str turn "parts") (fun parts =>
  rbind (subscript_0 parts) (fun part =>
  subscript_str part "text")))).

(** The text of the system instruction of a payload:
    [payload["systemInstruction"]["parts"][0]["text"]]. *)
Definition system_text (payload : json) : result json :=
  rbind (subscript_str payload "systemInstruction") (fun instruction =>
  rbind (subscript_str instruction "parts") (fun parts =>
  rbind (subscript_0 parts) (fun part =>
  subscript_str part "text"))).

(** A file system that differs from [fs] in the directory only. *)
Definition with_directory {E : Embedder} (fs : filesystem)
    (dir : option (gmap string string)) : filesystem :=
  {| knowledge_base := dir;
     vector_store_file := vector_store_file fs;
     documents_file := documents_file fs |}.

(** A body of the expected shape whose first candidate's first part has
    the text [answer], with further parts, candidates and keys. *)
Definition body_with (answer : json) (parts cands : list json)
    (keys : list (string * json)) : json :=
  JObj (("candidates",
         JArr (JObj [("content",
                      JObj [("parts", JArr (JObj [("text", answer)] :: parts))])]
               :: cands))
        :: keys).

(** * Properties *)

(** ** Sorting *)

Section Sorting.

Context {A : Type} (le : A -> A -> bool).

Lemma insert_by_Permutation (x : A) (l : list A) : insert_by le x l ≡ₚ x :: l.
Proof.
  induction l as [|y l IH]; simpl; [done|].
  destruct (le x y); [done|].
  rewrite IH. apply perm_swap.
Qed.

Lemma sorted_by_Permutation (l : list A) : sorted_by le l ≡ₚ l.
Proof.
  induction l as [|x l IH]; simpl; [done|].
  rewrite insert_by_Permutation. by rewrite IH.
Qed.

Lemma length_sorted_by (l : list A) : length (sorted_by le l) = length l.
Proof. by rewrite sorted_by_Permutation. Qed.

Lemma elem_of_sorted_by (x : A) (l : list A) : x ∈ sorted_by le l ↔ x ∈ l.
Proof. by rewrite sorted_by_Permutation. Qed.

Lemma sorted_by_singleton (x : A) : sorted_by le [x] = [x].
Proof. reflexivity. Qed.

Hypothesis le_total : forall x y, le x y = true \/ le y x = true.

Lemma insert_by_HdRel (R := fun a b => le a b = true) (a x : A) (l : list A) :
  R a x -> HdRel R a l -> HdRel R a (insert_by le x l).
Proof.
  intros Hax Hl. destruct l as [|y l]; simpl; [by constructor|].
  destruct (le x y); constructor; [done|].
  by inversion Hl.
Qed.

Lemma insert_by_Sorted (R := fun a b => le a b = true) (x : A) (l : list A) :
  Sorted R l -> Sorted R (insert_by le x l).
Proof.
  induction 1 as [|y l Hl IH Hhd]; simpl.
  - repeat constructor.
  - destruct (le x y) eqn:Hxy.
    + constructor; [by constructor|by constructor].
    + constructor; [done|].
      apply insert_by_HdRel; [|done].
      destruct (le_total x y) as [H|H]; [congruence|done].
Qed.

Lemma sorted_by_Sorted (l : list A) :
  Sorted (fun a b => le a b = true) (sorted_by le l).
Proof.
  induction l as [|x l IH]; simpl; [constructor|].
  by apply insert_by_Sorted.
Qed.

End Sorting.

(** [sorted] returns the file names in ascending order, each exactly as
    often as it was listed. *)
Lemma sorted_ascending (l : list string) :
  Sorted (fun a b => String.leb a b = true) (sorted l) /\ sorted l ≡ₚ l.
Proof.
  split.
  - apply sorted_by_Sorted. apply String.leb_total.
  - apply sorted_by_Permutation.
Qed.

(** ** Comprehensions and subscripts *)

Section Comprehension.

Context {A B : Type} (f : A -> result B).

Lemma comprehension_Forall2 (l : list A) (ys : list B) :
  comprehension f l = Ok ys -> Forall2 (fun x y => f x = Ok y) l ys.
Proof.
  revert ys. induction l as [|x l IH]; simpl; intros ys Hc.
  - injection Hc as <-. constructor.
  - destruct (f x) as [y|] eqn:Hy; [|discriminate].
    destruct (comprehension f l) as [ys'|]; [|discriminate].
    injection Hc as <-. constructor; [done|]. by apply IH.
Qed.

Lemma comprehension_length (l : list A) (ys : list B) :
  comprehension f l = Ok ys -> length ys = length l.
Proof. intros Hc. symmetry. eapply Forall2_length, comprehension_Forall2, Hc. Qed.


Lemma comprehension_nil_inv (l : list A) :
  comprehension f l = Ok [] -> l = [].
Proof.
  intros Hc. apply comprehension_length in Hc. by destruct l.
Qed.

End Comprehension.

Lemma py_getitem_Ok {A : Type} (l : list A) (i : Z) (x : A) :
  py_getitem l i = Ok x <->
  (- Z.of_nat (length l) <= i < Z.of_nat (length l))%Z
  /\ l !! position (length l) i = Some x.
Proof.
  unfold py_getitem, position.
  destruct (i <? 0)%Z eqn:Hneg.
  - apply Z.ltb_lt in Hneg.
    destruct ((0 <=? i + Z.of_nat (length l))%Z && (i + Z.of_nat (length l) <? Z.of_nat (length l))%Z) eqn:Hr.
    + apply andb_true_iff in Hr as [H1%Z.leb_le H2%Z.ltb_lt].
      destruct (l !! Z.to_nat (i + Z.of_nat (length l))) eqn:Hl; split.
      * intros [= ->]. split; [lia|done].
      * intros [_ [= ->]]. done.
      * discriminate.
      * intros [_ ?]. discriminate.
    + split; [discriminate|]. intros [Hrange _].
      apply andb_false_iff in Hr as [H%Z.leb_gt|H%Z.ltb_ge]; lia.
  - apply Z.ltb_ge in Hneg.
    destruct ((0 <=? i)%Z && (i <? Z.of_nat (length l))%Z) eqn:Hr.
    + apply andb_true_iff in Hr as [H1%Z.leb_le H2%Z.ltb_lt].
      destruct (l !! Z.to_nat i) eqn:Hl; split.
      * intros [= ->]. split; [lia|done].
      * intros [_ [= ->]]. done.
      * discriminate.
      * intros [_ ?]. discriminate.
    + split; [discriminate|]. intros [Hrange _].
      apply andb_false_iff in Hr as [H%Z.leb_gt|H%Z.ltb_ge]; lia.
Qed.


(** ** The vector index *)

Section Retrieval.

Context {E : Embedder}.

Lemma length_ranked_rows (ix : IndexFlatL2) (xq : vec) :
  length (ranked_rows ix xq) = ntotal ix.
Proof. unfold ranked_rows, ntotal. by rewrite length_sorted_by, length_imap. Qed.

Lemma ranked_rows_in_range (ix : IndexFlatL2) (xq : vec) (p : nat * score) :
  p ∈ ranked_rows ix xq -> fst p < ntotal ix.
Proof.
  unfold ranked_rows. rewrite elem_of_sorted_by.
  intros (i & v & -> & Hv)%elem_of_lookup_imap. simpl.
  by apply lookup_lt_Some in Hv.
Qed.

(** The search returns exactly [k] labels; each is a row of the index or
    the padding label [-1]; the hits come first and there are
    [min k ntotal] of them. *)
Lemma search_Ok (ix : IndexFlatL2) (xq : vec) (k : Z) (labels : list Z) :
  search ix xq k = Ok labels ->
  (0 < k)%Z
  /\ length labels = Z.to_nat k
  /\ Forall (fun i => i = (-1)%Z \/ (0 <= i < Z.of_nat (ntotal ix))%Z) labels
  /\ exists hits,
       labels = hits ++ replicate (Z.to_nat k - ntotal ix) (-1)%Z
       /\ length hits = Nat.min (Z.to_nat k) (ntotal ix)
       /\ Forall (fun i => (0 <= i < Z.of_nat (ntotal ix))%Z) hits.
Proof.
  unfold search. destruct (k <=? 0)%Z eqn:Hk; [discriminate|].
  apply Z.leb_gt in Hk. intros [= <-].
  set (hits := take (Z.to_nat k) (ranked_rows ix xq)).
  assert (Hlen : length hits = Nat.min (Z.to_nat k) (ntotal ix)).
  { unfold hits. by rewrite length_take, length_ranked_rows. }
  assert (Hhits : Forall (fun i => (0 <= i < Z.of_nat (ntotal ix))%Z)
                    (map (fun p => Z.of_nat (fst p)) hits)).
  { apply Forall_forall. intros i (p & -> & Hp)%list_elem_of_fmap.
    apply elem_of_take in Hp as (j & Hp & _).
    apply list_elem_of_lookup_2, ranked_rows_in_range in Hp. lia. }
  split; [done|]. split; [|split].
  - rewrite length_app, length_map, length_replicate. lia.
  - apply Forall_app. split.
    + eapply Forall_impl; [exact Hhits|]. intros i Hi. by right.
    + apply Forall_forall. intros i [-> _]%elem_of_replicate. by left.
  - exists (map (fun p => Z.of_nat (fst p)) hits). split; [|split].
    + f_equal. f_equal. lia.
    + by rewrite length_map.
    + done.
Qed.


(** With more neighbours asked for than rows indexed, the last
    [k - ntotal] labels are padding. *)
Lemma search_pads (ix : IndexFlatL2) (xq : vec) (k : Z) (labels : list Z) :
  search ix xq k = Ok labels ->
  (Z.of_nat (ntotal ix) < k)%Z ->
  drop (ntotal ix) labels = replicate (Z.to_nat k - ntotal ix) (-1)%Z
  /\ (-1)%Z ∈ labels.
Proof.
  intros (Hk & Hlen & _ & hits & -> & Hhits & _)%search_Ok Hlt.
  assert (length hits = ntotal ix) as Hh by lia.
  split.
  - by rewrite <- Hh, drop_app_length.
  - apply elem_of_app. right. apply elem_of_replicate. split; [done|lia].
Qed.

(** ** Retrieval *)

Lemma retrieve_index_unset (self : ServiceDeskRAG) (fs : filesystem)
    (q : string) (k : Z) :
  index self = None -> _retrieve_context self fs q k = Raise AttributeError.
Proof. unfold _retrieve_context. by intros ->. Qed.

Lemma retrieve_index_None (self : ServiceDeskRAG) (fs : filesystem)
    (q : string) (k : Z) :
  index self = Some None -> _retrieve_context self fs q k = Ok ([], []).
Proof. unfold _retrieve_context. by intros ->. Qed.

(** What a retrieval that returns has computed. *)
Lemma retrieve_inv (self : ServiceDeskRAG) (fs : filesystem) (q : string)
    (k : Z) (chunks sources : list string) :
  _retrieve_context self fs q k = Ok (chunks, sources) ->
  (index self = Some None /\ chunks = [] /\ sources = [])
  \/ (exists ix labels names,
        index self = Some (Some ix)
        /\ search ix (encode q) k = Ok labels
        /\ retrieved_chunks (documents self) labels = Ok chunks
        /\ sorted_txt_listing fs = Ok names
        /\ source_files names labels = Ok sources).
Proof.
  unfold _retrieve_context.
  destruct (index self) as [[ix|]|]; [|intros [= <- <-]; by left|discriminate].
  destruct (search ix (encode q) k) as [labels|] eqn:Hs; [|discriminate].
  destruct (retrieved_chunks (documents self) labels) as [cs|] eqn:Hc; [|discriminate].
  destruct (sorted_txt_listing fs) as [names|] eqn:Hn; [|discriminate].
  destruct (source_files names labels) as [ss|] eqn:Hss; [|discriminate].
  intros [= <- <-]. right. by exists ix, labels, names.
Qed.

(** An index that is present yields as many chunks as neighbours were
    asked for, whatever the number of rows. *)
Lemma retrieve_chunks_length (self : ServiceDeskRAG) (fs : filesystem)
    (q : string) (k : Z) (ix : IndexFlatL2) (chunks sources : list string) :
  index self = Some (Some ix) ->
  _retrieve_context self fs q k = Ok (chunks, sources) ->
  length chunks = Z.to_nat k.
Proof.
  intros Hix [(H & _)|(ix' & labels & names & _ & Hs & Hc & _)]%retrieve_inv;
    [congruence|].
  apply search_Ok in Hs as (_ & Hlen & _).
  apply comprehension_length in Hc. lia.
Qed.

(** With [k = 1] the only retrieval without chunks is the one of an
    object whose [index] is [None]. *)
Lemma retrieve_no_chunks_inv (self : ServiceDeskRAG) (fs : filesystem)
    (q : string) (sources : list string) :
  _retrieve_context self fs q 1 = Ok ([], sources) ->
  index self = Some None /\ sources = [].
Proof.
  intros H. destruct (retrieve_inv _ _ _ _ _ _ H) as [(? & _ & ?)|(ix & _ & _ & Hix & _)];
    [done|].
  by apply (retrieve_chunks_length _ _ _ _ _ _ _ Hix) in H.
Qed.

End Retrieval.

(** ** The generation client *)

Section Generation.

Variable flag : bool.
Variable ep : endpoint.
Variable payload : json.

Lemma posts_app (l1 l2 : list event) : posts (l1 ++ l2) = posts l1 + posts l2.
Proof. unfold posts. by rewrite List.filter_app, length_app. Qed.

Lemma posts_post (log : list event) (p : json) :
  posts (log ++ [EvPost p]) = S (posts log).
Proof. rewrite posts_app. unfold posts at 2. simpl. lia. Qed.

Lemma posts_sleep (log : list event) (d : Z) :
  posts (log ++ [EvSleep d]) = posts log.
Proof. rewrite posts_app. unfold posts at 2. simpl. lia. Qed.

Lemma posts_backoff_trace (n : nat) (d : Z) : posts (backoff_trace payload n d) = n.
Proof.
  revert d. induction n as [|n IH]; intros d; [done|].
  change (posts (backoff_trace payload (S n) d))
    with (S (posts (backoff_trace payload n (d * 2)))).
  by rewrite IH.
Qed.

Lemma sleeps_backoff_trace (n : nat) (d : Z) :
  sleeps (backoff_trace payload n d)
  = map (fun i => (d * 2 ^ Z.of_nat i)%Z) (seq 0 n).
Proof.
  revert d. induction n as [|n IH]; intros d; [done|].
  change (sleeps (backoff_trace payload (S n) d))
    with (d :: sleeps (backoff_trace payload n (d * 2))).
  rewrite IH. cbn [seq map]. f_equal; [simpl; lia|].
  rewrite <- seq_shift, map_map. apply map_ext. intros i.
  rewrite Nat2Z.inj_succ, Z.pow_succ_r; lia.
Qed.

(** A delay within the limits is slept. *)
Lemma sleep_error_None (d : Z) :
  (0 <= d)%Z -> (d <= sleep_limit)%Z -> sleep_error d = None.
Proof.
  intros H0 Hl. unfold sleep_error.
  destruct (d <? 0)%Z eqn:Hneg; [apply Z.ltb_lt in Hneg; lia|].
  destruct (sleep_limit <? d)%Z eqn:Hbig; [apply Z.ltb_lt in Hbig; lia|done].
Qed.


(** The delays of the code's own defaults are within the limit. *)
Lemma default_delays_within_limit (i : nat) :
  i < 5 -> (default_delay * 2 ^ Z.of_nat i <= sleep_limit)%Z.
Proof.
  intros Hi. unfold default_delay, sleep_limit.
  assert (2 ^ Z.of_nat i <= 2 ^ 4)%Z by (apply Z.pow_le_mono_r; lia).
  change (2 ^ 4)%Z with 16%Z in *. lia.
Qed.

(** One iteration: the post is logged, and the outcome decides. *)
Lemma attempt_eq (log : list event) :
  attempt flag ep payload log
  = (attempt_result flag (ep (posts log)), log ++ [EvPost payload]).
Proof.
  unfold attempt, try_except, mbind, M_bind, requests_post, attempt_result.
  destruct (ep (posts log)) as [|st b]; [done|]. simpl.
  destruct (st =? 200)%Z; [|done].
  unfold response_json. simpl.
  destruct b as [j|]; [done|]. simpl. by destruct flag.
Qed.

Lemma backoff_loop_S (n : nat) (d : Z) (log : list event) :
  backoff_loop flag ep payload (S n) d log
  = match attempt_result flag (ep (posts log)) with
    | Ok (Some j) => (Ok j, log ++ [EvPost payload])
    | Ok None =>
        match sleep_error d with
        | Some e => (Raise e, log ++ [EvPost payload])
        | None => backoff_loop flag ep payload n (d * 2)
                    ((log ++ [EvPost payload]) ++ [EvSleep d])
        end
    | Raise e => (Raise e, log ++ [EvPost payload])
    end.
Proof.
  cbn [backoff_loop]. unfold mbind at 1. unfold M_bind at 1.
  rewrite attempt_eq.
  destruct (attempt_result flag (ep (posts log))) as [[j|]|e]; [done| |done].
  unfold mbind, M_bind, time_sleep. by destruct (sleep_error d).
Qed.


(** [n] retried attempts in a row extend the log by the backoff trace
    and leave the loop with the delay doubled [n] times. *)
Lemma backoff_loop_retried (n iterations : nat) (d : Z) (log : list event) :
  n <= iterations ->
  (0 <= d)%Z ->
  (forall i, i < n -> (d * 2 ^ Z.of_nat i <= sleep_limit)%Z) ->
  (forall i, i < n -> attempt_result flag (ep (posts log + i)) = Ok None) ->
  backoff_loop flag ep payload iterations d log
  = backoff_loop flag ep payload (iterations - n) (d * 2 ^ Z.of_nat n)
      (log ++ backoff_trace payload n d).
Proof.
  revert iterations d log.
  induction n as [|n IH]; intros iterations d log Hn Hd Hlim Hr.
  - simpl. rewrite app_nil_r, Z.mul_1_r. by replace (iterations - 0) with iterations by lia.
  - destruct iterations as [|it]; [lia|].
    rewrite backoff_loop_S.
    specialize (Hr 0 ltac:(lia)) as H0. rewrite Nat.add_0_r in H0. rewrite H0.
    rewrite sleep_error_None; [|done|].
    2:{ specialize (Hlim 0 ltac:(lia)). simpl in Hlim. lia. }
    rewrite IH; [|lia|lia| |].
    2:{ intros i Hi. specialize (Hlim (S i) ltac:(lia)).
        rewrite Nat2Z.inj_succ, Z.pow_succ_r in Hlim by lia. lia. }
    + cbn [backoff_trace]. rewrite <- !app_assoc. simpl.
      replace (S it - S n) with (it - n) by lia.
      replace (d * 2 ^ Z.of_nat (S n))%Z with (d * 2 * 2 ^ Z.of_nat n)%Z; [done|].
      rewrite Nat2Z.inj_succ, Z.pow_succ_r; lia.
    + intros i Hi. rewrite posts_sleep, posts_post.
      replace (S (posts log) + i) with (posts log + S i) by lia.
      apply Hr. lia.
Qed.

(** The loop makes at most [iterations] posts. *)
Lemma backoff_loop_bounded (iterations : nat) (d : Z) (log : list event) :
  posts (snd (backoff_loop flag ep payload iterations d log))
  <= posts log + iterations.
Proof.
  revert d log. induction iterations as [|it IH]; intros d log.
  - simpl. unfold mret, M_ret. simpl. lia.
  - rewrite backoff_loop_S.
    destruct (attempt_result flag (ep (posts log))) as [[j|]|e]; simpl;
      rewrite ?posts_post; try lia.
    destruct (sleep_error d); simpl; rewrite ?posts_post; try lia.
    etransitivity; [apply IH|]. rewrite posts_sleep, posts_post. lia.
Qed.

(** The log only grows, by at least nothing. *)
Lemma backoff_loop_posts_mono (iterations : nat) (d : Z) (log : list event) :
  posts log <= posts (snd (backoff_loop flag ep payload iterations d log)).
Proof.
  revert d log. induction iterations as [|it IH]; intros d log.
  - simpl. unfold mret, M_ret. simpl. lia.
  - rewrite backoff_loop_S.
    destruct (attempt_result flag (ep (posts log))) as [[j|]|e]; simpl;
      rewrite ?posts_post; try lia.
    destruct (sleep_error d); simpl; rewrite ?posts_post; try lia.
    etransitivity; [|apply IH]. rewrite posts_sleep, posts_post. lia.
Qed.

(** Every attempt that was followed by another one was a retried one, and
    an attempt that is not retried is the last. *)
Lemma backoff_loop_attempts (iterations : nat) (d : Z) (log log' : list event)
    (r : result json) (n : nat) :
  backoff_loop flag ep payload iterations d log = (r, log') ->
  posts log <= n < posts log' ->
  (S n < posts log' -> attempt_result flag (ep n) = Ok None)
  /\ (forall j, attempt_result flag (ep n) = Ok (Some j) ->
        posts log' = S n /\ r = Ok j).
Proof.
  revert d log. induction iterations as [|it IH]; intros d log Hrun Hn.
  - simpl in Hrun. unfold mret, M_ret in Hrun. injection Hrun as <- <-. lia.
  - rewrite backoff_loop_S in Hrun.
    destruct (decide (n = posts log)) as [->|Hne].
    + destruct (attempt_result flag (ep (posts log))) as [[j|]|e] eqn:Ha.
      * injection Hrun as <- <-. rewrite posts_post. split; [lia|].
        by intros j' [= <-].
      * split; [done|]. intros j' [=].
      * injection Hrun as <- <-. rewrite posts_post. split; [lia|].
        intros j' [=].
    + destruct (attempt_result flag (ep (posts log))) as [[j|]|e] eqn:Ha.
      * injection Hrun as <- <-. rewrite posts_post in Hn. lia.
      * destruct (sleep_error d).
        { injection Hrun as <- <-. rewrite posts_post in Hn. lia. }
        apply IH in Hrun; [done|]. rewrite posts_sleep, posts_post. lia.
      * injection Hrun as <- <-. rewrite posts_post in Hn. lia.
Qed.

End Generation.

(** ** The query *)

Section Query.

Context {E : Embedder}.
Variable flag : bool.

Lemma outcome_of_succeeded (r : result json) (answer : json) (srcs : list string) :
  succeeded r answer -> outcome_of r srcs = (answer, srcs).
Proof.
  intros (j & cands & -> & Hc & Ht & Ha).
  unfold outcome_of, answer_of. simpl. rewrite Hc. simpl. rewrite Ht, Ha. done.
Qed.

Lemma outcome_of_failed (r : result json) (srcs : list string) :
  ~ (exists answer, succeeded r answer) ->
  outcome_of r srcs = (JStr invalid_response, [])
  \/ outcome_of r srcs = (JStr generation_error, []).
Proof.
  intros Hfail. unfold outcome_of, answer_of.
  destruct r as [j|e]; simpl; [|by right].
  destruct (candidates_of j) as [cands|] eqn:Hc; simpl; [|by right].
  destruct (truthy cands) eqn:Ht; [|by left].
  destruct (first_candidate_text j) as [a|] eqn:Ha; simpl; [|by right].
  exfalso. apply Hfail. exists a, j, cands. done.
Qed.

(** Whether the generation succeeded is decided by the client's result. *)
Lemma classic_succeeded (r : result json) :
  (exists answer, succeeded r answer) \/ ~ (exists answer, succeeded r answer).
Proof.
  destruct r as [j|e]; [|right; by intros (a & j & c & [=] & _)].
  destruct (candidates_of j) as [cands|] eqn:Hc;
    [|right; intros (a & j' & c & [= <-] & Hc' & _); congruence].
  destruct (truthy cands) eqn:Ht;
    [|right; intros (a & j' & c & [= <-] & Hc' & Ht' & _); congruence].
  destruct (first_candidate_text j) as [a|] eqn:Ha;
    [|right; intros (a & j' & c & [= <-] & _ & _ & Ha'); congruence].
  left. exists a, j, cands. done.
Qed.

Lemma outcome_of_sources (r : result json) (srcs srcs' : list string) (a : json) :
  outcome_of r srcs = (a, srcs') -> srcs' <> [] -> srcs' = srcs /\ succeeded r a.
Proof.
  unfold outcome_of, answer_of.
  destruct r as [j|e]; simpl; [|by intros [= <- <-]].
  destruct (candidates_of j) as [cands|] eqn:Hc; simpl; [|by intros [= <- <-]].
  destruct (truthy cands) eqn:Ht; [|by intros [= <- <-]].
  destruct (first_candidate_text j) as [a'|] eqn:Ha; simpl; [|by intros [= <- <-]].
  intros [= <- <-] _. split; [done|]. by exists j, cands.
Qed.

Lemma outcome_of_no_candidates (j cands : json) (srcs : list string) :
  candidates_of j = Ok cands -> truthy cands = false ->
  outcome_of (Ok j) srcs = (JStr invalid_response, []).
Proof. intros Hc Ht. unfold outcome_of, answer_of. simpl. by rewrite Hc; simpl; rewrite Ht. Qed.

(** A retrieval that raises makes [query] raise: the call stands outside
    the [try]. *)
Lemma query_retrieval_raises (self : ServiceDeskRAG) (fs : filesystem)
    (ep : endpoint) (q : string) (e : exn) (log : list event) :
  _retrieve_context self fs q 1 = Raise e ->
  query flag self fs ep q log = (Raise e, log).
Proof. intros H. unfold query, mbind, M_bind, lift. by rewrite H. Qed.

(** Without chunks [query] returns at once, the log untouched. *)
Lemma query_without_chunks (self : ServiceDeskRAG) (fs : filesystem)
    (ep : endpoint) (q : string) (srcs : list string) (log : list event) :
  _retrieve_context self fs q 1 = Ok ([], srcs) ->
  query flag self fs ep q log = (Ok (JStr no_information, []), log).
Proof. intros H. unfold query, mbind, M_bind, lift. by rewrite H. Qed.

(** With chunks retrieved, [query] returns whatever the client's result
    amounts to, and its log is the client's. *)
Lemma query_generates (self : ServiceDeskRAG) (fs : filesystem) (ep : endpoint)
    (q : string) (chunks srcs : list string) (log : list event) :
  _retrieve_context self fs q 1 = Ok (chunks, srcs) ->
  chunks <> [] ->
  query flag self fs ep q log
  = let rl := _call_gemini_with_backoff flag ep (make_payload chunks q)
                default_retries default_delay log in
    (Ok (outcome_of (fst rl) srcs), snd rl).
Proof.
  intros H Hne. unfold query, mbind at 1. unfold M_bind at 1. unfold lift at 1.
  rewrite H. destruct chunks as [|c cs]; [done|].
  unfold try_except, generate, mbind, M_bind.
  destruct (_call_gemini_with_backoff _ _ _ _ _ log) as [[j|e] log']; simpl; [|done].
  unfold lift, outcome_of. simpl. by destruct (answer_of j srcs).
Qed.

End Query.

(** * The claims *)

(** ** Retrieval over an empty corpus (C1) *)

(** C1 (the code departs from the claim).  The claim: with an empty
    corpus, retrieval returns the pair of two empty lists and does not
    fail.  On the code, building over a directory without [.txt] files
    returns before [self.index] is ever assigned, so the object has no
    such attribute; every later retrieval, for every query text and every
    [k], raises [AttributeError] where the guard [self.index is None]
    reads the attribute, and so does [query], which calls the retrieval
    outside its [try]. *)
Theorem empty_corpus_retrieval_raises {E : Embedder} (flag : bool)
    (ep : endpoint) (q : string) (k : Z) :
  let self := {| documents := []; index := None |} in
  __init__ empty_corpus = Ok (self, empty_corpus)
  /\ _retrieve_context self empty_corpus q k = Raise AttributeError
  /\ query flag self empty_corpus ep q [] = (Raise AttributeError, []).
Proof.
  intros self. split; [|split].
  - vm_compute. reflexivity.
  - by apply retrieve_index_unset.
  - by apply query_retrieval_raises, retrieve_index_unset.
Qed.

(** The guard itself works on an object whose attribute holds [None]. *)
Lemma retrieve_guard (E : Embedder) (fs : filesystem) (q : string) (k : Z) :
  _retrieve_context index_is_None fs q k = Ok ([], []).
Proof. by apply retrieve_index_None. Qed.

(** ** More neighbours than rows (C2) *)

(** C2 (the code departs from the claim).  The claim: for [k] greater
    than the number [N] of indexed vectors the search returns [min k N]
    hits and no padding reaches the chunks or the source ids.  On the
    code, with one article indexed and [k = 2] (the default of
    [_retrieve_context]), the search returns the labels [0; -1]; the
    comprehensions subscript the document list and the file-name list
    with [-1], which in Python is the last element, so the single article
    and its file name come back twice. *)
Theorem retrieval_propagates_padding {E : Embedder} (q : string) :
  let text := "Restart the VPN client." in
  let ix := {| xb := [encode text] |} in
  let self := {| documents := [text]; index := Some (Some ix) |} in
  (exists fs', __init__ one_article = Ok (self, fs'))
  /\ search ix (encode q) 2 = Ok [0; -1]%Z
  /\ _retrieve_context self one_article q 2
     = Ok ([text; text], ["vpn.txt"; "vpn.txt"]).
Proof.
  intros text ix self. split; [|split].
  - eexists. vm_compute. reflexivity.
  - reflexivity.
  - vm_compute. reflexivity.
Qed.

(** ** The refusal (C4) *)

(** C4.  For every question, if the retrieval yields no chunk then
    [query] returns the fixed "no relevant information" sentence with an
    empty source list, and the log is left as it was: no post is made,
    the generation client is not called. *)
Theorem query_no_chunks_refuses {E : Embedder} (flag : bool)
    (self : ServiceDeskRAG) (fs : filesystem) (ep : endpoint) (q : string)
    (srcs : list string) (log : list event) :
  _retrieve_context self fs q 1 = Ok ([], srcs) ->
  query flag self fs ep q log
  = (Ok (JStr "I'm sorry, I could not find any relevant information.", []), log).
Proof. apply query_without_chunks. Qed.

Lemma query_no_chunks_refuses_witness :
  @_retrieve_context length_embedder index_is_None empty_corpus
     "Where is the printer?" 1 = Ok ([], [])
  /\ @query length_embedder true index_is_None empty_corpus dead_endpoint
       "Where is the printer?" []
     = (Ok (JStr "I'm sorry, I could not find any relevant information.", []), []).
Proof.
  split; [reflexivity|].
  apply (@query_no_chunks_refuses length_embedder true index_is_None
           empty_corpus dead_endpoint "Where is the printer?" [] []).
  reflexivity.
Defined.

(** ** The retry loop (C5) *)



(** ** What reaches the caller of [query] (C6) *)

(** C6, as stated, fails: [query] does raise when the retrieval raises,
    whatever the endpoint does.  Here the pipeline was loaded from its
    persisted artifacts and the knowledge-base directory is missing when
    the query is served; listing the directory raises, outside the [try]. *)
Lemma query_raises_when_directory_missing :
  @__init__ length_embedder directory_missing
    = Ok (two_articles_pipeline, directory_missing)
  /\ @query length_embedder true two_articles_pipeline directory_missing
       dead_endpoint "My VPN wont connect" []
     = (Raise FileNotFoundError, []).
Proof. split; reflexivity. Qed.

(** C6, amended.  Whenever the retrieval step returns, [query] returns a
    pair for every behaviour of the endpoint and raises nothing, after at
    most five posts.  Without chunks the pair is the "no relevant
    information" sentence with no source, and nothing is posted.  With
    chunks, the log is the log of the client's call and the pair is
    decided by the client's result [r]: when the generation succeeded,
    the generated text with the retrieved source ids; when it did not
    ([None] after the retries, a body without the candidate structure, or
    an exception), the "invalid response" or the "error" sentence with an
    empty source list. *)
Theorem query_absorbs_generation_errors {E : Embedder} (flag : bool)
    (self : ServiceDeskRAG) (fs : filesystem) (ep : endpoint) (q : string)
    (chunks srcs : list string) :
  _retrieve_context self fs q 1 = Ok (chunks, srcs) ->
  exists answer sources log,
    query flag self fs ep q [] = (Ok (answer, sources), log)
    /\ posts log <= 5
    /\ (chunks = [] ->
        answer = JStr no_information /\ sources = [] /\ log = [])
    /\ (chunks <> [] ->
        exists r,
          _call_gemini_with_backoff flag ep (make_payload chunks q)
            default_retries default_delay [] = (r, log)
          /\ ((succeeded r answer /\ sources = srcs)
              \/ (~ (exists a, succeeded r a)
                  /\ sources = []
                  /\ (answer = JStr invalid_response
                      \/ answer = JStr generation_error)))).
Proof.
  intros Hr. destruct chunks as [|c cs].
  - exists (JStr no_information), [], [].
    rewrite (query_without_chunks flag _ _ ep _ _ [] Hr).
    split; [done|]. split; [unfold posts; simpl; lia|]. split; [done|].
    by intros [].
  - rewrite (query_generates flag _ _ ep _ _ _ [] Hr) by done. cbn zeta.
    pose proof (backoff_loop_bounded flag ep (make_payload (c :: cs) q)
                  (Z.to_nat default_retries) default_delay []) as Hb.
    unfold _call_gemini_with_backoff at 1 2. fold (_call_gemini_with_backoff flag ep
      (make_payload (c :: cs) q) default_retries default_delay []).
    unfold _call_gemini_with_backoff.
    destruct (backoff_loop flag ep _ _ _ []) as [r log]. simpl in *.
    destruct (outcome_of r srcs) as [answer sources] eqn:Ho.
    exists answer, sources, log. split; [done|]. split; [exact Hb|].
    split; [done|]. intros _. exists r. split; [done|].
    destruct (classic_succeeded r) as [[a Ha]|Hfail].
    + rewrite (outcome_of_succeeded _ _ _ Ha) in Ho. injection Ho as <- <-.
      by left.
    + right. split; [done|].
      destruct (outcome_of_failed r srcs Hfail) as [H|H];
        rewrite H in Ho; injection Ho as <- <-; auto.
Qed.

Lemma query_absorbs_generation_errors_witness :
  @_retrieve_context length_embedder two_articles_pipeline two_articles
     "My VPN wont connect" 1
    = Ok (["Restart the VPN client."], ["vpn.txt"])
  /\ exists answer sources log,
       @query length_embedder true two_articles_pipeline two_articles
          dead_endpoint "My VPN wont connect" []
         = (Ok (answer, sources), log)
       /\ posts log <= 5
       /\ (["Restart the VPN client."] = [] ->
           answer = JStr no_information /\ sources = [] /\ log = [])
       /\ (["Restart the VPN client."] <> [] ->
           exists r,
             _call_gemini_with_backoff true dead_endpoint
               (make_payload ["Restart the VPN client."] "My VPN wont connect")
               default_retries default_delay [] = (r, log)
             /\ ((succeeded r answer /\ sources = ["vpn.txt"])
                 \/ (~ (exists a, succeeded r a)
                     /\ sources = []
                     /\ (answer = JStr invalid_response
                         \/ answer = JStr generation_error)))).
Proof.
  split; [reflexivity|].
  apply (@query_absorbs_generation_errors length_embedder true
           two_articles_pipeline two_articles dead_endpoint
           "My VPN wont connect" ["Restart the VPN client."] ["vpn.txt"]).
  reflexivity.
Defined.

(** ** What is retried (C7) *)

(** C7, as stated, fails: a response of the 2xx class other than 200 is
    retried like an error.  An endpoint that answers 201 with a JSON
    object without candidates is posted to five times, with all five
    sleeps, and the client comes back with [None]. *)
Lemma status_201_is_retried :
  created_endpoint 0 = HttpResponse 201 (Some (JObj []))
  /\ is_2xx 201 = true
  /\ candidates_of (JObj []) = Ok (JObj [])
  /\ truthy (JObj []) = false
  /\ (forall flag,
        fst (_call_gemini_with_backoff flag created_endpoint JNull 5 2 [])
          = Ok JNull
        /\ posts (snd (_call_gemini_with_backoff flag created_endpoint JNull 5 2 []))
           = 5
        /\ sleeps (snd (_call_gemini_with_backoff flag created_endpoint JNull 5 2 []))
           = [2; 4; 8; 16; 32]%Z).
Proof.
  repeat split; try reflexivity; destruct flag; reflexivity.
Qed.

(** The outcomes after which the loop sleeps and goes on. *)
Lemma attempt_result_retried (flag : bool) (o : attempt_outcome) :
  attempt_result flag o = Ok None ->
  o = ConnectionFailed
  \/ exists st b, o = HttpResponse st b
       /\ (st <> 200%Z \/ (b = None /\ flag = true)).
Proof.
  destruct o as [|st b]; [by left|]. simpl. intros H. right. exists st, b.
  split; [done|].
  destruct (st =? 200)%Z eqn:Hst; [|left; by apply Z.eqb_neq].
  destruct b; [discriminate|]. destruct flag; [by right|discriminate].
Qed.

(** C7, amended.  During a query that reached the generation step, an
    attempt is followed by another one only if it failed in transport,
    came back with a status other than 200 (other 2xx codes included), or
    came back 200 with a body that is not JSON and the library raises a
    [RequestException] for it.  Whenever an attempt returns status 200
    with a JSON body, it is the last attempt; and when that body has no
    candidates [query] returns the canned "invalid response" answer with
    no source (any other malformed body gives a canned answer too). *)
Theorem status_200_is_terminal {E : Embedder} (flag : bool)
    (self : ServiceDeskRAG) (fs : filesystem) (ep : endpoint) (q : string)
    (chunks srcs : list string) (r : result (json * list string))
    (log : list event) (n : nat) :
  _retrieve_context self fs q 1 = Ok (chunks, srcs) ->
  chunks <> [] ->
  query flag self fs ep q [] = (r, log) ->
  n < posts log ->
  (S n < posts log ->
     ep n = ConnectionFailed
     \/ exists st b, ep n = HttpResponse st b
          /\ (st <> 200%Z \/ (b = None /\ flag = true)))
  /\ (forall j,
        ep n = HttpResponse 200 (Some j) ->
        posts log = S n
        /\ r = Ok (outcome_of (Ok j) srcs)
        /\ (forall cands,
              candidates_of j = Ok cands -> truthy cands = false ->
              r = Ok (JStr invalid_response, []))
        /\ (~ (exists a, succeeded (Ok j) a) ->
            exists text,
              (text = invalid_response \/ text = generation_error)
              /\ r = Ok (JStr text, []))).
Proof.
  intros Hr Hne Hq Hn.
  rewrite (query_generates flag _ _ ep _ _ _ [] Hr Hne) in Hq. cbn zeta in Hq.
  unfold _call_gemini_with_backoff in Hq.
  destruct (backoff_loop flag ep _ _ _ []) as [r' log'] eqn:Hrun.
  simpl in Hq. injection Hq as <- <-.
  destruct (backoff_loop_attempts flag ep _ _ _ _ _ _ n Hrun) as [Hmore Hlast].
  { unfold posts at 1. simpl. lia. }
  split.
  - intros Hlt. by apply (attempt_result_retried flag), Hmore.
  - intros j Hj. destruct (Hlast j) as [Hposts ->]; [by rewrite Hj|].
    split; [done|]. split; [done|]. split.
    + intros cands Hc Ht. by rewrite (outcome_of_no_candidates j cands).
    + intros Hfail. destruct (outcome_of_failed (Ok j) srcs Hfail) as [H|H];
        rewrite H; [exists invalid_response|exists generation_error]; auto.
Qed.

Lemma status_200_is_terminal_witness :
  let run := @query length_embedder true two_articles_pipeline two_articles
               no_candidates_endpoint "My VPN wont connect" [] in
  0 < posts (snd run)
  /\ no_candidates_endpoint 0 = HttpResponse 200 (Some (JObj [("error", JStr "blocked")]))
  /\ posts (snd run) = 1
  /\ fst run = Ok (JStr invalid_response, []).
Proof.
  intros run.
  assert (Hn : 0 < posts (snd run)) by (apply Nat.lt_0_succ).
  destruct (@status_200_is_terminal length_embedder true two_articles_pipeline
              two_articles no_candidates_endpoint "My VPN wont connect"
              ["Restart the VPN client."] ["vpn.txt"] (fst run) (snd run) 0)
    as [_ H].
  - reflexivity.
  - discriminate.
  - reflexivity.
  - exact Hn.
  - destruct (H (JObj [("error", JStr "blocked")])) as (Hp & _ & Hinv & _);
      [reflexivity|].
    split; [exact Hn|]. split; [reflexivity|]. split; [exact Hp|].
    apply (Hinv JNull); reflexivity.
Defined.

(** ** Sources of a failed generation (C9) *)

(** C9.  Once chunks were retrieved, whenever the generation fails
    [query] returns a canned answer with an empty source list, whatever
    source ids the retrieval had produced:
    - when all five attempts are retried (retries exhausted), the answer
      is the "invalid response" sentence;
    - when an attempt returns 200 with a body without candidates, too;
    - for every result of the client that is not a success, the answer is
      the "invalid response" or the "error" sentence, with no source.
    Source ids are returned only with a successful generation, and they
    are then the retrieved ones. *)
Theorem failed_generation_drops_sources {E : Embedder} (flag : bool)
    (self : ServiceDeskRAG) (fs : filesystem) (ep : endpoint) (q : string)
    (chunks srcs : list string) :
  _retrieve_context self fs q 1 = Ok (chunks, srcs) ->
  chunks <> [] ->
  let payload := make_payload chunks q in
  ((forall i, i < 5 -> attempt_result flag (ep i) = Ok None) ->
     query flag self fs ep q []
     = (Ok (JStr invalid_response, []), backoff_trace payload 5 2))
  /\ (forall n j cands,
        n < 5 ->
        (forall i, i < n -> attempt_result flag (ep i) = Ok None) ->
        ep n = HttpResponse 200 (Some j) ->
        candidates_of j = Ok cands ->
        truthy cands = false ->
        query flag self fs ep q []
        = (Ok (JStr invalid_response, []),
           backoff_trace payload n 2 ++ [EvPost payload]))
  /\ (forall r log,
        _call_gemini_with_backoff flag ep payload default_retries default_delay []
          = (r, log) ->
        ~ (exists a, succeeded r a) ->
        exists text,
          (text = invalid_response \/ text = generation_error)
          /\ query flag self fs ep q [] = (Ok (JStr text, []), log))
  /\ (forall a srcs' log,
        query flag self fs ep q [] = (Ok (a, srcs'), log) ->
        srcs' <> [] ->
        srcs' = srcs
        /\ exists r,
             _call_gemini_with_backoff flag ep payload default_retries
               default_delay [] = (r, log)
             /\ succeeded r a).
Proof.
  intros Hr Hne payload.
  pose proof (query_generates flag _ _ ep _ _ _ [] Hr Hne) as Hq.
  cbn zeta in Hq. fold payload in Hq.
  split; [|split; [|split]].
  - intros Hfail. rewrite Hq. unfold _call_gemini_with_backoff.
    rewrite (backoff_loop_retried flag ep payload 5);
      [|unfold default_retries; simpl; lia|unfold default_delay; lia
       |intros ? ?; apply default_delays_within_limit; lia|exact Hfail].
    reflexivity.
  - intros n j cands Hn Hfail Hj Hc Ht. rewrite Hq.
    unfold _call_gemini_with_backoff.
    rewrite (backoff_loop_retried flag ep payload n);
      [|unfold default_retries; simpl; lia|unfold default_delay; lia
       |intros ? ?; apply default_delays_within_limit; lia|exact Hfail].
    change (Z.to_nat default_retries) with 5.
    destruct (5 - n) as [|m] eqn:Hm; [lia|].
    rewrite backoff_loop_S. simpl app.
    rewrite posts_backoff_trace, Hj. simpl.
    by rewrite (outcome_of_no_candidates j cands).
  - intros r log Hrun Hfail. rewrite Hq, Hrun. simpl.
    destruct (outcome_of_failed r srcs Hfail) as [H|H]; rewrite H;
      [exists invalid_response|exists generation_error]; auto.
  - intros a srcs' log Hquery Hsrcs. rewrite Hq in Hquery.
    destruct (_call_gemini_with_backoff flag ep payload _ _ []) as [r log'].
    simpl in Hquery. injection Hquery as Ho <-.
    destruct (outcome_of_sources r srcs srcs' a) as [-> Hok]; [|done|].
    + by destruct (outcome_of r srcs) as [a' s']; simplify_eq.
    + split; [done|]. by exists r.
Qed.

Lemma failed_generation_drops_sources_witness :
  @_retrieve_context length_embedder two_articles_pipeline two_articles
     "My VPN wont connect" 1
    = Ok (["Restart the VPN client."], ["vpn.txt"])
  /\ @query length_embedder true two_articles_pipeline two_articles
       dead_endpoint "My VPN wont connect" []
     = (Ok (JStr invalid_response, []),
        backoff_trace
          (make_payload ["Restart the VPN client."] "My VPN wont connect") 5 2).
Proof.
  split; [reflexivity|].
  destruct (@failed_generation_drops_sources length_embedder true
              two_articles_pipeline two_articles dead_endpoint
              "My VPN wont connect" ["Restart the VPN client."] ["vpn.txt"])
    as [H _].
  - reflexivity.
  - discriminate.
  - apply H. intros i _. reflexivity.
Defined.

(** ** Rows, documents and file names (C3, C8, C10) *)

Lemma filter_keeps_all (n : Z) (labels : list Z) :
  Forall (fun i => (i < n)%Z) labels ->
  List.filter (fun i => (i <? n)%Z) labels = labels.
Proof.
  induction 1 as [|i l Hi _ IH]; simpl; [done|].
  apply Z.ltb_lt in Hi. by rewrite Hi, IH.
Qed.

Lemma filter_same_length {A : Type} (P : A -> bool) (l : list A) :
  length (List.filter P l) = length l -> List.filter P l = l.
Proof.
  induction l as [|x l IH]; simpl; [done|].
  destruct (P x); simpl.
  - intros [= H]. by rewrite IH.
  - intros H. pose proof (List.filter_length_le P l). lia.
Qed.

Lemma filter_filter_lt (m n : Z) (labels : list Z) :
  (m <= n)%Z ->
  List.filter (fun i => (i <? m)%Z) (List.filter (fun i => (i <? n)%Z) labels)
  = List.filter (fun i => (i <? m)%Z) labels.
Proof.
  intros Hmn. induction labels as [|i l IH]; simpl; [done|].
  destruct (i <? n)%Z eqn:Hn; simpl.
  - destruct (i <? m)%Z; by rewrite IH.
  - destruct (i <? m)%Z eqn:Hm; [|done].
    apply Z.ltb_lt in Hm. apply Z.ltb_ge in Hn. lia.
Qed.

Lemma Forall2_same_left {A B C : Type} (P : A -> B -> Prop) (Q : A -> C -> Prop)
    (R : B -> C -> Prop) (l : list A) (xs : list B) (ys : list C) :
  (forall a x y, P a x -> Q a y -> R x y) ->
  Forall2 P l xs -> Forall2 Q l ys -> Forall2 R xs ys.
Proof.
  intros HR HP. revert ys. induction HP as [|a x l xs Hax _ IH]; intros ys HQ.
  - inversion HQ. constructor.
  - inversion HQ as [|? y ? ys' Hay HQ']; subst. constructor; eauto.
Qed.

(** Two comprehensions over the same labels that return the same list
    agree on every label. *)
Lemma comprehension_agree {A B : Type} (f g : A -> result B) (l : list A)
    (ys : list B) (a : A) :
  comprehension f l = Ok ys -> comprehension g l = Ok ys ->
  a ∈ l -> f a = g a.
Proof.
  intros Hf%comprehension_Forall2 Hg%comprehension_Forall2 Ha.
  apply list_elem_of_lookup in Ha as [i Hi].
  destruct (Forall2_lookup_l _ _ _ _ _ Hf Hi) as (y & Hy & ->).
  destruct (Forall2_lookup_l _ _ _ _ _ Hg Hi) as (y' & Hy' & ->).
  congruence.
Qed.

Section Alignment.

Context {E : Embedder}.

Lemma load_documents_inv (fs : filesystem) (docs : list string) :
  _load_documents fs = Ok docs ->
  exists names,
    sorted_txt_listing fs = Ok names
    /\ Forall2 (fun name doc => read_file fs name = Ok doc) names docs.
Proof.
  unfold _load_documents.
  destruct (sorted_txt_listing fs) as [names|]; [|discriminate].
  intros H%comprehension_Forall2. by exists names.
Qed.

(** What a pipeline constructed without persisted artifacts holds: the
    documents are the texts of the sorted [.txt] files, in that order,
    and the rows of the index are their embeddings, in that order; with
    no document there is no index attribute. *)
Lemma init_build (fs fs' : filesystem) (self : ServiceDeskRAG) :
  __init__ fs = Ok (self, fs') ->
  vector_store_file fs = None \/ documents_file fs = None ->
  exists names,
    sorted_txt_listing fs = Ok names
    /\ Forall2 (fun name doc => read_file fs name = Ok doc) names (documents self)
    /\ knowledge_base fs' = knowledge_base fs
    /\ ((documents self = [] /\ index self = None)
        \/ (documents self <> []
            /\ index self = Some (Some {| xb := map encode (documents self) |}))).
Proof.
  intros Hinit Hbuild.
  assert (Hb : _build_vector_store {| documents := []; index := None |} fs
               = Ok (self, fs')).
  { unfold __init__ in Hinit.
    destruct (vector_store_file fs), (documents_file fs), Hbuild; done. }
  clear Hinit. unfold _build_vector_store in Hb.
  destruct (_load_documents fs) as [docs|] eqn:Hload; [|discriminate].
  apply load_documents_inv in Hload as (names & Hnames & Hread).
  exists names. destruct docs as [|doc docs]; injection Hb as <- <-; simpl.
  - split; [done|]. split; [done|]. split; [done|]. by left.
  - split; [done|]. split; [done|]. split; [done|]. right. done.
Qed.

(** The labels that subscript the document list without an error are
    below its length. *)
Lemma retrieved_chunks_labels (docs chunks : list string) (labels : list Z) :
  retrieved_chunks docs labels = Ok chunks ->
  Forall (fun i => (i < Z.of_nat (length docs))%Z) labels.
Proof.
  intros H%comprehension_Forall2. apply Forall_forall. intros i Hi.
  apply list_elem_of_lookup in Hi as [n Hn].
  destruct (Forall2_lookup_l _ _ _ _ _ H Hn) as (c & _ & Hc).
  apply py_getitem_Ok in Hc. lia.
Qed.

End Alignment.

(** C3, as stated, fails: the file names are listed afresh at every
    retrieval, so the alignment does not hold for every query served
    after a build.  The index is built over two articles; a third file
    is then added to the directory; the next query retrieves row 1, the
    VPN article, and attributes it to the entry 1 of the new listing,
    [printer.txt], which is the file of another document. *)
Lemma alignment_lost_after_file_added :
  @__init__ length_embedder two_articles
    = Ok (two_articles_pipeline, persisted (Some two_articles_dir))
  /\ @sorted_txt_listing length_embedder two_articles
     = Ok ["printer.txt"; "vpn.txt"]
  /\ @sorted_txt_listing length_embedder article_added
     = Ok ["password.txt"; "printer.txt"; "vpn.txt"]
  /\ @search length_embedder two_articles_index
       (@encode length_embedder "My VPN wont connect") 1 = Ok [1%Z]
  /\ @_retrieve_context length_embedder two_articles_pipeline article_added
       "My VPN wont connect" 1
     = Ok (["Restart the VPN client."], ["printer.txt"])
  /\ @read_file length_embedder article_added "printer.txt"
     = Ok "Install the printer driver from the IT portal."
  /\ ~ Forall2 (fun chunk source =>
                  @read_file length_embedder article_added source = Ok chunk)
         ["Restart the VPN client."] ["printer.txt"].
Proof.
  repeat split; try (vm_compute; reflexivity).
  intros H. inversion H as [|? ? ? ? Hread _]. vm_compute in Hread. discriminate.
Qed.

(** C3, amended.  After a build, and for as long as the sorted listing of
    the directory's [.txt] files is what it was at the build, the three
    collections are aligned: they have the same length, row [i] of the
    index is the embedding of document [i], and document [i] is the text
    of the [i]-th file name.  Every retrieval then maps each returned
    label to its chunk and to its source id through the same subscript,
    and each chunk is the text of the file named as its source. *)
Theorem alignment_after_build {E : Embedder} (fs fs' fs_query : filesystem)
    (self : ServiceDeskRAG) (q : string) (k : Z)
    (chunks sources : list string) :
  __init__ fs = Ok (self, fs') ->
  vector_store_file fs = None \/ documents_file fs = None ->
  sorted_txt_listing fs_query = sorted_txt_listing fs ->
  _retrieve_context self fs_query q k = Ok (chunks, sources) ->
  exists ix names labels,
    index self = Some (Some ix)
    /\ sorted_txt_listing fs_query = Ok names
    /\ search ix (encode q) k = Ok labels
    /\ length (xb ix) = length (documents self)
    /\ length names = length (documents self)
    /\ (forall i doc,
          documents self !! i = Some doc ->
          xb ix !! i = Some (encode doc)
          /\ exists name, names !! i = Some name /\ read_file fs name = Ok doc)
    /\ Forall2 (fun i chunk => py_getitem (documents self) i = Ok chunk)
         labels chunks
    /\ Forall2 (fun i source => py_getitem names i = Ok source) labels sources
    /\ Forall2 (fun chunk source => read_file fs source = Ok chunk)
         chunks sources.
Proof.
  intros Hinit Hbuild Hlist Hret.
  destruct (init_build _ _ _ Hinit Hbuild)
    as (names & Hnames & Hread & _ & Hcase).
  pose proof (Forall2_length _ _ _ Hread) as Hlen.
  apply retrieve_inv in Hret
    as [(Hnone & _)|(ix & labels & names' & Hix & Hs & Hc & Hn' & Hsrc)].
  { destruct Hcase as [(_ & H)|(_ & H)]; congruence. }
  assert (names' = names) as -> by congruence.
  destruct Hcase as [(_ & H)|(Hne & H)]; [congruence|].
  assert (ix = {| xb := map encode (documents self) |}) as -> by congruence.
  pose proof (retrieved_chunks_labels _ _ _ Hc) as Hlabels.
  unfold source_files in Hsrc.
  rewrite filter_keeps_all in Hsrc by (by rewrite Hlen).
  apply comprehension_Forall2 in Hc, Hsrc.
  exists {| xb := map encode (documents self) |}, names, labels.
  split; [done|]. split; [done|]. split; [done|].
  split; [simpl; by rewrite length_map|]. split; [done|].
  split; [|split; [done|split; [done|]]].
  - intros i doc Hdoc. split.
    + simpl. change (map encode (documents self)) with (encode <$> documents self).
      by rewrite list_lookup_fmap, Hdoc.
    + destruct (Forall2_lookup_r _ _ _ _ _ Hread Hdoc) as (name & Hname & Hrd).
      by exists name.
  - eapply Forall2_same_left; [|exact Hc|exact Hsrc].
    intros i chunk source [_ Hchunk]%py_getitem_Ok [_ Hsource]%py_getitem_Ok.
    rewrite Hlen in Hsource.
    exact (Forall2_lookup_lr _ _ _ _ _ _ Hread Hsource Hchunk).
Qed.

Lemma alignment_after_build_witness :
  @__init__ length_embedder two_articles
    = Ok (two_articles_pipeline, persisted (Some two_articles_dir))
  /\ @sorted_txt_listing length_embedder (persisted (Some two_articles_dir))
     = @sorted_txt_listing length_embedder two_articles
  /\ @_retrieve_context length_embedder two_articles_pipeline
       (persisted (Some two_articles_dir)) "My VPN wont connect" 1
     = Ok (["Restart the VPN client."], ["vpn.txt"])
  /\ Forall2 (fun chunk source =>
                @read_file length_embedder two_articles source = Ok chunk)
       ["Restart the VPN client."] ["vpn.txt"].
Proof.
  split; [reflexivity|]. split; [reflexivity|]. split; [reflexivity|].
  destruct (@alignment_after_build length_embedder two_articles
              (persisted (Some two_articles_dir))
              (persisted (Some two_articles_dir))
              two_articles_pipeline "My VPN wont connect" 1
              ["Restart the VPN client."] ["vpn.txt"])
    as (ix & names & labels & _ & _ & _ & _ & _ & _ & _ & _ & H).
  - reflexivity.
  - left. reflexivity.
  - reflexivity.
  - reflexivity.
  - exact H.
Defined.

(** C8, as stated, fails: the two lists can differ in length.  After the
    file [vpn.txt] was removed from the directory, the retrieval of row 1
    returns the VPN article and no source id, because the label 1 is not
    below the length of the new listing. *)
Lemma sources_shorter_after_file_removed :
  @sorted_txt_listing length_embedder article_removed = Ok ["printer.txt"]
  /\ @search length_embedder two_articles_index
       (@encode length_embedder "My VPN wont connect") 1 = Ok [1%Z]
  /\ @_retrieve_context length_embedder two_articles_pipeline article_removed
       "My VPN wont connect" 1
     = Ok (["Restart the VPN client."], [])
  /\ length (A := string) [] <> length ["Restart the VPN client."].
Proof. repeat split; try (vm_compute; reflexivity). discriminate. Qed.

(** C8, amended.  Whenever a retrieval returns, the source list is not
    longer than the chunk list: there is one chunk per label returned by
    the search, and one source id per label that is below the length of
    the current listing.  The two lists have the same length whenever the
    listing has at least as many entries as the document list. *)
Theorem sources_no_longer_than_chunks {E : Embedder} (self : ServiceDeskRAG)
    (fs : filesystem) (q : string) (k : Z) (chunks sources : list string) :
  _retrieve_context self fs q k = Ok (chunks, sources) ->
  length sources <= length chunks
  /\ (forall ix labels names,
        index self = Some (Some ix) ->
        search ix (encode q) k = Ok labels ->
        sorted_txt_listing fs = Ok names ->
        length chunks = length labels
        /\ length sources
           = length (List.filter (fun i => (i <? Z.of_nat (length names))%Z) labels))
  /\ (forall names,
        sorted_txt_listing fs = Ok names ->
        length (documents self) <= length names ->
        length sources = length chunks).
Proof.
  intros [(Hnone & -> & ->)|(ix & labels & names & Hix & Hs & Hc & Hn & Hsrc)]%retrieve_inv.
  { split; [done|]. split; [|done]. intros ix labels names Hix. congruence. }
  pose proof (retrieved_chunks_labels _ _ _ Hc) as Hlabels.
  apply comprehension_length in Hc.
  unfold source_files in Hsrc. pose proof (comprehension_length _ _ _ Hsrc) as Hsl.
  split; [|split].
  - rewrite Hsl, Hc. apply List.filter_length_le.
  - intros ix' labels' names' Hix' Hs' Hn'.
    assert (ix' = ix) as -> by congruence.
    assert (labels' = labels) as -> by congruence.
    assert (names' = names) as -> by congruence. done.
  - intros names' Hn' Hle. assert (names' = names) as -> by congruence.
    rewrite Hsl, Hc. f_equal. apply filter_keeps_all.
    eapply Forall_impl; [exact Hlabels|]. simpl. intros i Hi. lia.
Qed.

Lemma sources_no_longer_than_chunks_witness :
  @_retrieve_context length_embedder two_articles_pipeline article_added
     "My VPN wont connect" 1
    = Ok (["Restart the VPN client."], ["printer.txt"])
  /\ length ["printer.txt"] <= length ["Restart the VPN client."]
  /\ length ["printer.txt"] = length ["Restart the VPN client."].
Proof.
  split; [reflexivity|].
  destruct (@sources_no_longer_than_chunks length_embedder
              two_articles_pipeline article_added "My VPN wont connect" 1
              ["Restart the VPN client."] ["printer.txt"])
    as (Hle & _ & Heq).
  - reflexivity.
  - split; [exact Hle|].
    apply (Heq ["password.txt"; "printer.txt"; "vpn.txt"]).
    + reflexivity.
    + apply Nat.leb_le. reflexivity.
Defined.

(** The retrieval reads the file system only through the sorted listing
    of the directory: the persisted artifacts play no part in it. *)
Lemma retrieve_depends_on_listing {E : Embedder} (self : ServiceDeskRAG)
    (fs1 fs2 : filesystem) (q : string) (k : Z) :
  sorted_txt_listing fs1 = sorted_txt_listing fs2 ->
  _retrieve_context self fs1 q k = _retrieve_context self fs2 q k.
Proof. intros H. unfold _retrieve_context. by rewrite H. Qed.

(** * Further properties of the pipeline *)

(** ** The corpus loader *)

Lemma substring_all (s : string) : String.substring 0 (String.length s) s = s.
Proof. induction s as [|c s IH]; simpl; [done|]. by rewrite IH. Qed.

Lemma append_cons (c : ascii) (s1 s2 : string) :
  (String c s1 ++ s2)%string = String c (s1 ++ s2)%string.
Proof. reflexivity. Qed.

Lemma substring_after (p s : string) (m : nat) :
  String.substring (String.length p) m (p ++ s)%string = String.substring 0 m s.
Proof.
  induction p as [|c p IH]; [done|].
  rewrite append_cons. simpl. exact IH.
Qed.

Lemma substring_split (s : string) (k : nat) :
  k <= String.length s ->
  s = (String.substring 0 k s ++ String.substring k (String.length s - k) s)%string.
Proof.
  revert k. induction s as [|c s IH]; intros [|k] Hk; simpl in *; try done; try lia.
  - by rewrite substring_all.
  - rewrite append_cons. f_equal. apply IH. lia.
Qed.

Lemma length_append (s1 s2 : string) :
  String.length (s1 ++ s2)%string = String.length s1 + String.length s2.
Proof.
  induction s1 as [|c s1 IH]; [done|].
  rewrite append_cons. simpl. by rewrite IH.
Qed.

(** [endswith] holds of the strings that are some stem followed by the
    suffix. *)
Lemma endswith_spec (s suffix : string) :
  endswith s suffix = true <-> exists stem, s = (stem ++ suffix)%string.
Proof.
  unfold endswith. rewrite andb_true_iff, Nat.leb_le, String.eqb_eq. split.
  - intros [Hle Hsub].
    exists (String.substring 0 (String.length s - String.length suffix) s).
    pose proof (substring_split s (String.length s - String.length suffix)
                  ltac:(lia)) as Hsplit.
    replace (String.length s - (String.length s - String.length suffix))
      with (String.length suffix) in Hsplit by lia.
    by rewrite Hsub in Hsplit.
  - intros [stem ->]. rewrite length_append. split; [lia|].
    replace (String.length stem + String.length suffix - String.length suffix)
      with (String.length stem) by lia.
    by rewrite substring_after, substring_all.
Qed.

#[local] Instance leb_transitive :
  Transitive (fun a b : string => String.leb a b = true).
Proof.
  intros a b c Hab%Is_true_true Hbc%Is_true_true. apply Is_true_true.
  change (String.le a c). by trans b.
Qed.

#[local] Instance leb_antisymmetric :
  AntiSymm (=) (fun a b : string => String.leb a b = true).
Proof. intros a b. apply String.leb_antisym. Qed.

Lemma filter_Permutation_bool {A : Type} (P : A -> bool) (l1 l2 : list A) :
  l1 ≡ₚ l2 -> List.filter P l1 ≡ₚ List.filter P l2.
Proof.
  induction 1 as [|x l1 l2 _ IH|x y l|l1 l2 l3 _ IH1 _ IH2]; simpl.
  - done.
  - destruct (P x); by rewrite IH.
  - destruct (P x), (P y); try done. apply perm_swap.
  - by trans (List.filter P l2).
Qed.

(** Sorting two enumerations of the same names gives the same list. *)
Lemma sorted_Permutation_eq (l1 l2 : list string) :
  l1 ≡ₚ l2 -> sorted l1 = sorted l2.
Proof.
  intros Hp.
  apply (Sorted_unique (fun a b : string => String.leb a b = true)).
  - apply sorted_by_Sorted, String.leb_total.
  - apply sorted_by_Sorted, String.leb_total.
  - unfold sorted. by rewrite !sorted_by_Permutation.
Qed.

Lemma comprehension_ext {A B : Type} (f g : A -> result B) (l : list A) :
  (forall x, x ∈ l -> f x = g x) -> comprehension f l = comprehension g l.
Proof.
  induction l as [|x l IH]; intros H; simpl; [done|].
  rewrite (H x) by apply list_elem_of_here.
  rewrite IH; [done|]. intros y Hy. apply H. by apply list_elem_of_further.
Qed.

Section Loader.

Context {E : Embedder}.

(** The names in the listing: those of the directory that end in
    [.txt]. *)
Lemma elem_of_sorted_txt_listing (fs : filesystem) (dir : gmap string string)
    (names : list string) (f : string) :
  knowledge_base fs = Some dir ->
  sorted_txt_listing fs = Ok names ->
  f ∈ names <-> is_Some (dir !! f) /\ endswith f ".txt" = true.
Proof.
  unfold sorted_txt_listing, listdir. intros -> [= <-].
  unfold sorted. rewrite elem_of_sorted_by, list_elem_of_In, List.filter_In.
  rewrite <- list_elem_of_In.
  change (map fst (map_to_list dir)) with ((map_to_list dir).*1).
  rewrite list_elem_of_fmap. split.
  - intros [([f' text] & -> & Hin%elem_of_map_to_list) Hend]. simpl in *.
    split; [by exists text|done].
  - intros [[text Htext] Hend]. split; [|done].
    exists (f, text). split; [done|]. by apply elem_of_map_to_list.
Qed.

Lemma NoDup_sorted_txt_listing (fs : filesystem) (names : list string) :
  sorted_txt_listing fs = Ok names -> NoDup names.
Proof.
  unfold sorted_txt_listing, listdir.
  destruct (knowledge_base fs) as [dir|]; [|discriminate]. intros [= <-].
  unfold sorted. rewrite sorted_by_Permutation.
  apply NoDup_ListNoDup, List.NoDup_filter, NoDup_ListNoDup.
  apply NoDup_fst_map_to_list.
Qed.

(** A construction that built: either nothing was found and nothing was
    written, or the object and the files hold the same documents and
    index. *)
Lemma init_build_persisted (fs fs' : filesystem) (self : ServiceDeskRAG) :
  __init__ fs = Ok (self, fs') ->
  vector_store_file fs = None \/ documents_file fs = None ->
  (self = {| documents := []; index := None |} /\ fs' = fs)
  \/ (exists ix docs,
        self = {| documents := docs; index := Some (Some ix) |}
        /\ fs' = {| knowledge_base := knowledge_base fs;
                    vector_store_file := Some ix;
                    documents_file := Some docs |}
        /\ docs <> []
        /\ xb ix = map encode docs).
Proof.
  intros Hinit Hbuild.
  assert (Hb : _build_vector_store {| documents := []; index := None |} fs
               = Ok (self, fs')).
  { unfold __init__ in Hinit.
    destruct (vector_store_file fs), (documents_file fs), Hbuild; done. }
  unfold _build_vector_store in Hb.
  destruct (_load_documents fs) as [[|doc docs]|]; [| |discriminate].
  - injection Hb as <- <-. by left.
  - injection Hb as <- <-. right.
    eexists _, (doc :: docs). split; [done|]. split; [done|]. split; done.
Qed.

End Loader.

(** X1.  The listing that the loader and the retriever compute is the
    ascending, duplicate-free list of exactly those names of the directory
    that are some stem followed by [.txt]. *)
Theorem listing_is_sorted_txt_names {E : Embedder} (fs : filesystem)
    (dir : gmap string string) (names : list string) :
  knowledge_base fs = Some dir ->
  sorted_txt_listing fs = Ok names ->
  Sorted (fun a b => String.leb a b = true) names
  /\ NoDup names
  /\ (forall f,
        f ∈ names <->
        is_Some (dir !! f) /\ exists stem, f = (stem ++ ".txt")%string).
Proof.
  intros Hdir Hnames. split; [|split].
  - unfold sorted_txt_listing in Hnames.
    destruct (listdir fs); [|discriminate]. injection Hnames as <-.
    apply sorted_by_Sorted, String.leb_total.
  - by apply (NoDup_sorted_txt_listing fs).
  - intros f. rewrite <- endswith_spec.
    by apply (elem_of_sorted_txt_listing fs).
Qed.

Lemma listing_is_sorted_txt_names_witness :
  @sorted_txt_listing length_embedder two_articles
    = Ok ["printer.txt"; "vpn.txt"]
  /\ Sorted (fun a b => String.leb a b = true) ["printer.txt"; "vpn.txt"]
  /\ NoDup ["printer.txt"; "vpn.txt"].
Proof.
  split; [reflexivity|].
  destruct (@listing_is_sorted_txt_names length_embedder two_articles
              two_articles_dir ["printer.txt"; "vpn.txt"])
    as (Hs & Hn & _); [reflexivity|reflexivity|].
  split; [exact Hs|exact Hn].
Defined.

(** X2.  The order in which the directory is enumerated does not matter:
    two enumerations of the same entries give the same listing. *)
Theorem listing_independent_of_enumeration_order (entries1 entries2 : list string) :
  entries1 ≡ₚ entries2 ->
  sorted (List.filter (fun f => endswith f ".txt") entries1)
  = sorted (List.filter (fun f => endswith f ".txt") entries2).
Proof. intros Hp. by apply sorted_Permutation_eq, filter_Permutation_bool. Qed.

Lemma listing_independent_of_enumeration_order_witness :
  sorted (List.filter (fun f => endswith f ".txt") ["vpn.txt"; "notes.md"; "printer.txt"])
  = sorted (List.filter (fun f => endswith f ".txt") ["notes.md"; "printer.txt"; "vpn.txt"]).
Proof.
  apply listing_independent_of_enumeration_order.
  apply (Permutation_cons_append ["notes.md"; "printer.txt"] "vpn.txt").
Defined.

(** X3.  The loader raises [FileNotFoundError] when the directory is
    missing.  Whenever it returns, it returns one document per name of
    the listing, in the order of the listing, each the text of its
    file. *)
Theorem loader_returns_texts_in_name_order {E : Embedder} (fs : filesystem) :
  (knowledge_base fs = None -> _load_documents fs = Raise FileNotFoundError)
  /\ (forall docs,
        _load_documents fs = Ok docs ->
        exists dir names,
          knowledge_base fs = Some dir
          /\ sorted_txt_listing fs = Ok names
          /\ length docs = length names
          /\ Forall2 (fun name doc => dir !! name = Some doc) names docs
          /\ (forall i name,
                names !! i = Some name ->
                exists doc, docs !! i = Some doc /\ dir !! name = Some doc)).
Proof.
  split.
  - intros Hdir. unfold _load_documents, sorted_txt_listing, listdir.
    by rewrite Hdir.
  - intros docs Hload.
    destruct (load_documents_inv fs docs Hload) as (names & Hnames & Hread).
    destruct (knowledge_base fs) as [dir|] eqn:Hdir.
    2:{ unfold sorted_txt_listing, listdir in Hnames. by rewrite Hdir in Hnames. }
    assert (Hdocs : Forall2 (fun name doc => dir !! name = Some doc) names docs).
    { eapply Forall2_impl; [exact Hread|]. intros name doc.
      unfold read_file. rewrite Hdir. destruct (dir !! name); [|done]. congruence. }
    exists dir, names. split; [done|]. split; [done|].
    split; [symmetry; by eapply Forall2_length|]. split; [done|].
    intros i name Hi.
    destruct (Forall2_lookup_l _ _ _ _ _ Hdocs Hi) as (doc & Hdoc & Hlook).
    by exists doc.
Qed.

Lemma loader_returns_texts_in_name_order_witness :
  @_load_documents length_embedder two_articles
    = Ok ["Install the printer driver from the IT portal.";
          "Restart the VPN client."]
  /\ exists dir names,
       @knowledge_base length_embedder two_articles = Some dir
       /\ @sorted_txt_listing length_embedder two_articles = Ok names
       /\ length ["Install the printer driver from the IT portal.";
                  "Restart the VPN client."] = length names
       /\ Forall2 (fun name doc => dir !! name = Some doc) names
            ["Install the printer driver from the IT portal.";
             "Restart the VPN client."]
       /\ (forall i name,
             names !! i = Some name ->
             exists doc,
               ["Install the printer driver from the IT portal.";
                "Restart the VPN client."] !! i = Some doc
               /\ dir !! name = Some doc).
Proof.
  split; [reflexivity|].
  destruct (@loader_returns_texts_in_name_order length_embedder two_articles)
    as [_ H].
  apply H. reflexivity.
Defined.

(** X5.  Constructing again from the file system that a successful
    construction left gives the same object and leaves the files as they
    are: what was persisted is what is loaded. *)
Theorem init_idempotent {E : Embedder} (fs fs' : filesystem) (self : ServiceDeskRAG) :
  __init__ fs = Ok (self, fs') -> __init__ fs' = Ok (self, fs').
Proof.
  intros Hinit.
  destruct (vector_store_file fs) as [ix|] eqn:Hv;
    [destruct (documents_file fs) as [docs|] eqn:Hd|].
  - unfold __init__ in Hinit. rewrite Hv, Hd in Hinit.
    injection Hinit as <- <-. unfold __init__. by rewrite Hv, Hd.
  - destruct (init_build_persisted _ _ _ Hinit) as [[-> ->]|(ix' & docs' & -> & -> & _)];
      [by right|done|reflexivity].
  - destruct (init_build_persisted _ _ _ Hinit) as [[-> ->]|(ix' & docs' & -> & -> & _)];
      [by left|done|reflexivity].
Qed.

Lemma init_idempotent_witness :
  @__init__ length_embedder two_articles
    = Ok (two_articles_pipeline, persisted (Some two_articles_dir))
  /\ @__init__ length_embedder (persisted (Some two_articles_dir))
     = Ok (two_articles_pipeline, persisted (Some two_articles_dir)).
Proof.
  split; [reflexivity|].
  apply (@init_idempotent length_embedder two_articles). reflexivity.
Defined.

(** X6.  Once a construction has left documents, the directory is not
    read at construction any more: whatever the directory becomes
    (changed, emptied, removed), constructing from the persisted
    artifacts gives the same object again. *)
Theorem persisted_artifacts_shadow_directory {E : Embedder} (fs fs' : filesystem)
    (self : ServiceDeskRAG) (dir : option (gmap string string)) :
  __init__ fs = Ok (self, fs') ->
  documents self <> [] ->
  __init__ (with_directory fs' dir) = Ok (self, with_directory fs' dir).
Proof.
  intros Hinit Hne.
  destruct (vector_store_file fs) as [ix|] eqn:Hv;
    [destruct (documents_file fs) as [docs|] eqn:Hd|].
  - unfold __init__ in Hinit. rewrite Hv, Hd in Hinit.
    injection Hinit as <- <-. unfold __init__, with_directory. simpl.
    by rewrite Hv, Hd.
  - destruct (init_build_persisted _ _ _ Hinit) as [[-> ->]|(ix' & docs' & -> & -> & _)];
      [by right|done|reflexivity].
  - destruct (init_build_persisted _ _ _ Hinit) as [[-> ->]|(ix' & docs' & -> & -> & _)];
      [by left|done|reflexivity].
Qed.

Lemma persisted_artifacts_shadow_directory_witness :
  @__init__ length_embedder two_articles
    = Ok (two_articles_pipeline, persisted (Some two_articles_dir))
  /\ documents (@two_articles_pipeline length_embedder) <> []
  /\ @__init__ length_embedder directory_missing
     = Ok (two_articles_pipeline, directory_missing).
Proof.
  split; [reflexivity|]. split; [discriminate|].
  apply (@persisted_artifacts_shadow_directory length_embedder two_articles
           (persisted (Some two_articles_dir)) two_articles_pipeline None).
  - reflexivity.
  - discriminate.
Defined.

(** X7.  A file whose name does not end in [.txt] is not part of the
    corpus: writing such a file into the directory changes neither the
    listing nor the documents loaded. *)
Theorem non_txt_file_does_not_change_corpus {E : Embedder} (fs : filesystem)
    (dir : gmap string string) (f text : string) :
  knowledge_base fs = Some dir ->
  endswith f ".txt" = false ->
  let fs' := with_directory fs (Some (<[f := text]> dir)) in
  sorted_txt_listing fs' = sorted_txt_listing fs
  /\ _load_documents fs' = _load_documents fs.
Proof.
  intros Hdir Hf fs'.
  assert (Hlist : sorted_txt_listing fs' = sorted_txt_listing fs).
  { unfold sorted_txt_listing, listdir, fs', with_directory. simpl. rewrite Hdir.
    f_equal. apply sorted_Permutation_eq, NoDup_Permutation.
    - apply NoDup_ListNoDup, List.NoDup_filter, NoDup_ListNoDup,
        NoDup_fst_map_to_list.
    - apply NoDup_ListNoDup, List.NoDup_filter, NoDup_ListNoDup,
        NoDup_fst_map_to_list.
    - intros x. rewrite !list_elem_of_In, !List.filter_In, <- !list_elem_of_In.
      change (map fst (map_to_list (<[f:=text]> dir)))
        with ((map_to_list (<[f:=text]> dir)).*1).
      change (map fst (map_to_list dir)) with ((map_to_list dir).*1).
      rewrite !list_elem_of_fmap.
      split; intros [([x' t] & -> & Hin%elem_of_map_to_list) Hend]; simpl in *;
        (split; [|done]).
      + assert (f <> x') by congruence.
        rewrite lookup_insert_ne in Hin by done.
        exists (x', t). split; [done|]. by apply elem_of_map_to_list.
      + assert (f <> x') by congruence.
        exists (x', t). split; [done|]. apply elem_of_map_to_list.
        by rewrite lookup_insert_ne. }
  split; [exact Hlist|].
  unfold _load_documents. rewrite Hlist.
  destruct (sorted_txt_listing fs) as [names|] eqn:Hnames; [|done].
  apply comprehension_ext. intros x Hx.
  apply (elem_of_sorted_txt_listing fs dir names x Hdir Hnames) in Hx as [_ Hend].
  assert (f <> x) by congruence.
  unfold read_file, fs', with_directory. simpl. rewrite Hdir.
  by rewrite lookup_insert_ne.
Qed.

Lemma non_txt_file_does_not_change_corpus_witness :
  @_load_documents length_embedder
     (with_directory two_articles
        (Some (<["README.md" := "Articles of the service desk."]> two_articles_dir)))
  = @_load_documents length_embedder two_articles.
Proof.
  apply (@non_txt_file_does_not_change_corpus length_embedder two_articles
           two_articles_dir "README.md" "Articles of the service desk.");
    reflexivity.
Defined.

(** ** The retriever *)

Lemma py_getitem_Raise {A : Type} (l : list A) (i : Z) (e : exn) :
  py_getitem l i = Raise e -> e = IndexError.
Proof.
  unfold py_getitem.
  destruct (_ && _); [|by intros [= <-]].
  destruct (l !! _); [discriminate|by intros [= <-]].
Qed.

Lemma py_getitem_out_of_range {A : Type} (l : list A) (i : Z) :
  ~ (- Z.of_nat (length l) <= i < Z.of_nat (length l))%Z ->
  py_getitem l i = Raise IndexError.
Proof.
  intros Hout. destruct (py_getitem l i) as [x|e] eqn:Hg.
  - apply py_getitem_Ok in Hg as [Hr _]. done.
  - by apply py_getitem_Raise in Hg as ->.
Qed.

Lemma py_getitem_last {A : Type} (l : list A) (x : A) :
  py_getitem l (-1) = Ok x <-> last l = Some x.
Proof.
  rewrite py_getitem_Ok, last_lookup. unfold position.
  change (-1 <? 0)%Z with true. cbv iota.
  replace (Z.to_nat (-1 + Z.of_nat (length l))) with (pred (length l)) by lia.
  split; [by intros [_ ?]|]. intros Hl. split; [|done].
  apply lookup_lt_Some in Hl. lia.
Qed.

Lemma comprehension_Raise_Exists {A B : Type} (f : A -> result B) (l : list A)
    (e : exn) :
  (forall x e', f x = Raise e' -> e' = e) ->
  Exists (fun x => exists e', f x = Raise e') l ->
  comprehension f l = Raise e.
Proof.
  intros Hall. induction 1 as [x l [e' He']|x l _ IH]; simpl.
  - rewrite He'. by rewrite (Hall _ _ He').
  - destruct (f x) as [y|e'] eqn:Hx; [|by rewrite (Hall _ _ Hx)].
    by rewrite IH.
Qed.

(** The length of the two lists of a retrieval that found an index. *)
Lemma retrieve_lengths {E : Embedder} (self : ServiceDeskRAG) (fs : filesystem)
    (q : string) (k : Z) (chunks sources : list string) :
  _retrieve_context self fs q k = Ok (chunks, sources) ->
  length sources <= length chunks
  /\ (chunks = [] \/ length chunks = Z.to_nat k).
Proof.
  intros Hr. pose proof Hr as Hr'.
  apply retrieve_inv in Hr
    as [(_ & -> & ->)|(ix & labels & names & Hix & Hs & Hc & Hn & Hsrc)].
  { split; [done|by left]. }
  split; [|right; by eapply retrieve_chunks_length].
  apply comprehension_length in Hc, Hsrc. rewrite Hsrc, Hc.
  apply List.filter_length_le.
Qed.



(** X9.  With [k = 1], as [query] asks, and an index of at least one
    row, a retrieval that returns has found exactly one chunk: the
    document of a row [i] of the index, never a padding label; and it has
    at most one source id, the [i]-th name of the current listing. *)
Theorem single_neighbour_is_a_row {E : Embedder} (self : ServiceDeskRAG)
    (fs : filesystem) (q : string) (ix : IndexFlatL2)
    (chunks sources : list string) :
  index self = Some (Some ix) ->
  1 <= ntotal ix ->
  _retrieve_context self fs q 1 = Ok (chunks, sources) ->
  exists i doc names,
    i < ntotal ix
    /\ search ix (encode q) 1 = Ok [Z.of_nat i]
    /\ documents self !! i = Some doc
    /\ chunks = [doc]
    /\ sorted_txt_listing fs = Ok names
    /\ (sources = [] /\ length names <= i
        \/ exists name, sources = [name] /\ names !! i = Some name).
Proof.
  intros Hix Hrows
    [(Hnone & _)|(ix' & labels & names & Hix' & Hs & Hc & Hn & Hsrc)]%retrieve_inv;
    [congruence|].
  assert (ix' = ix) as -> by congruence.
  destruct (search_Ok _ _ _ _ Hs) as (_ & _ & _ & hits & -> & Hlen & Hrange).
  replace (Z.to_nat 1 - ntotal ix) with 0 in * by lia.
  replace (Nat.min (Z.to_nat 1) (ntotal ix)) with 1 in Hlen by lia.
  destruct hits as [|z [|? ?]]; try done. simpl in *.
  pose proof (List.Forall_inv Hrange) as Hz0. simpl in Hz0.
  exists (Z.to_nat z).
  unfold retrieved_chunks in Hc. simpl in Hc.
  destruct (py_getitem (documents self) z) as [doc|] eqn:Hdoc; [|done].
  injection Hc as <-.
  apply py_getitem_Ok in Hdoc as [_ Hdoc]. unfold position in Hdoc.
  destruct (z <? 0)%Z eqn:Hz; [apply Z.ltb_lt in Hz; lia|].
  exists doc, names. split; [lia|]. split; [by rewrite Z2Nat.id by lia|].
  split; [done|]. split; [done|]. split; [done|].
  unfold source_files in Hsrc. simpl in Hsrc.
  destruct (z <? Z.of_nat (length names))%Z eqn:Hlt; simpl in Hsrc.
  - destruct (py_getitem names z) as [name|] eqn:Hname; [|done].
    injection Hsrc as <-. right. exists name. split; [done|].
    apply py_getitem_Ok in Hname as [_ Hname]. unfold position in Hname.
    by rewrite Hz in Hname.
  - injection Hsrc as <-. left. split; [done|]. apply Z.ltb_ge in Hlt. lia.
Qed.

Lemma single_neighbour_is_a_row_witness :
  exists i doc names,
    i < @ntotal length_embedder two_articles_index
    /\ @search length_embedder two_articles_index
         (@encode length_embedder "My VPN wont connect") 1 = Ok [Z.of_nat i]
    /\ documents (@two_articles_pipeline length_embedder) !! i = Some doc
    /\ ["Restart the VPN client."] = [doc]
    /\ @sorted_txt_listing length_embedder two_articles = Ok names
    /\ (["vpn.txt"] = [] /\ length names <= i
        \/ exists name, ["vpn.txt"] = [name] /\ names !! i = Some name).
Proof.
  apply (@single_neighbour_is_a_row length_embedder two_articles_pipeline
           two_articles "My VPN wont connect" two_articles_index
           ["Restart the VPN client."] ["vpn.txt"]).
  - reflexivity.
  - apply Nat.leb_le. reflexivity.
  - reflexivity.
Defined.

(** X10.  The document list is not checked against the index: when the
    search returns a label for which the document list has no entry (a
    row beyond the loaded documents), the retrieval raises [IndexError],
    whatever the directory holds. *)
Theorem retrieval_row_without_document_raises {E : Embedder}
    (self : ServiceDeskRAG) (fs : filesystem) (q : string) (k : Z)
    (ix : IndexFlatL2) (labels : list Z) :
  index self = Some (Some ix) ->
  search ix (encode q) k = Ok labels ->
  Exists (fun i => ~ (- Z.of_nat (length (documents self)) <= i
                      < Z.of_nat (length (documents self)))%Z) labels ->
  _retrieve_context self fs q k = Raise IndexError.
Proof.
  intros Hix Hs Hout. unfold _retrieve_context. rewrite Hix, Hs.
  unfold retrieved_chunks.
  rewrite (comprehension_Raise_Exists _ _ IndexError); [done| |].
  - intros x e'. apply py_getitem_Raise.
  - eapply Exists_impl; [exact Hout|]. simpl. intros i Hi.
    exists IndexError. by apply py_getitem_out_of_range.
Qed.

Lemma retrieval_row_without_document_raises_witness :
  @_retrieve_context length_embedder
     {| documents := ["Install the printer driver from the IT portal."];
        index := Some (Some two_articles_index) |}
     two_articles "My VPN wont connect" 1
  = Raise IndexError.
Proof.
  apply (@retrieval_row_without_document_raises length_embedder _ _ _ _
           two_articles_index [1%Z]).
  - reflexivity.
  - reflexivity.
  - apply Exists_cons_hd. simpl. intros [_ H]. revert H. apply Z.lt_irrefl.
Defined.

(** X11.  With more neighbours asked for than rows indexed, every
    padding label is read as the subscript [-1]: a retrieval that returns
    over an index with as many rows [N] as documents has, after the
    chunks of the [N] rows, the last document [k - N] more times, and its
    source list ends with the last file name of the listing as often. *)
Theorem padding_repeats_last_document {E : Embedder} (self : ServiceDeskRAG)
    (fs : filesystem) (q : string) (k : Z) (ix : IndexFlatL2)
    (chunks sources : list string) :
  index self = Some (Some ix) ->
  ntotal ix = length (documents self) ->
  (Z.of_nat (ntotal ix) < k)%Z ->
  _retrieve_context self fs q k = Ok (chunks, sources) ->
  exists last_doc last_name names front,
    last (documents self) = Some last_doc
    /\ drop (ntotal ix) chunks = replicate (Z.to_nat k - ntotal ix) last_doc
    /\ length chunks = Z.to_nat k
    /\ sorted_txt_listing fs = Ok names
    /\ last names = Some last_name
    /\ sources = front ++ replicate (Z.to_nat k - ntotal ix) last_name.
Proof.
  intros Hix Hrows Hk
    [(Hnone & _)|(ix' & labels & names & Hix' & Hs & Hc & Hn & Hsrc)]%retrieve_inv;
    [congruence|].
  assert (ix' = ix) as -> by congruence.
  destruct (search_Ok _ _ _ _ Hs) as (_ & _ & _ & hits & -> & Hlen & Hrange).
  replace (Nat.min (Z.to_nat k) (ntotal ix)) with (ntotal ix) in Hlen by lia.
  set (pad := Z.to_nat k - ntotal ix) in *.
  assert (Hpad : 0 < pad) by (unfold pad; lia).
  unfold retrieved_chunks in Hc. apply comprehension_Forall2 in Hc.
  apply Forall2_app_inv_l in Hc as (c1 & c2 & Hc1 & Hc2 & ->).
  assert (exists last_doc, last (documents self) = Some last_doc
            /\ c2 = replicate pad last_doc) as (last_doc & Hlast & ->).
  { destruct pad as [|pad']; [lia|].
    inversion Hc2 as [|? d ? c2' Hd Hrest]; subst.
    apply py_getitem_last in Hd. exists d. split; [done|].
    symmetry. apply replicate_as_Forall. split.
    - apply Forall2_length in Hrest. rewrite length_replicate in Hrest.
      simpl. lia.
    - constructor; [done|]. apply Forall_forall. intros c Hin.
      apply list_elem_of_lookup in Hin as [n Hn'].
      destruct (Forall2_lookup_r _ _ _ _ _ Hrest Hn') as (i & Hi & Hg).
      apply lookup_replicate in Hi as [-> _].
      apply py_getitem_last in Hg. congruence. }
  unfold source_files in Hsrc.
  rewrite List.filter_app in Hsrc.
  assert (Hkeep : List.filter (fun i => (i <? Z.of_nat (length names))%Z)
                    (replicate pad (-1)%Z) = replicate pad (-1)%Z).
  { apply filter_keeps_all, Forall_forall.
    intros i [-> _]%elem_of_replicate. lia. }
  rewrite Hkeep in Hsrc. apply comprehension_Forall2 in Hsrc.
  apply Forall2_app_inv_l in Hsrc as (s1 & s2 & _ & Hs2 & ->).
  assert (exists last_name, last names = Some last_name
            /\ s2 = replicate pad last_name) as (last_name & Hlastn & ->).
  { destruct pad as [|pad']; [lia|].
    inversion Hs2 as [|? d ? s2' Hd Hrest]; subst.
    apply py_getitem_last in Hd. exists d. split; [done|].
    symmetry. apply replicate_as_Forall. split.
    - apply Forall2_length in Hrest. rewrite length_replicate in Hrest.
      simpl. lia.
    - constructor; [done|]. apply Forall_forall. intros c Hin.
      apply list_elem_of_lookup in Hin as [n Hn'].
      destruct (Forall2_lookup_r _ _ _ _ _ Hrest Hn') as (i & Hi & Hg).
      apply lookup_replicate in Hi as [-> _].
      apply py_getitem_last in Hg. congruence. }
  exists last_doc, last_name, names, s1.
  apply Forall2_length in Hc1.
  split; [done|]. split; [|split; [|done]].
  - rewrite <- Hlen, Hc1. by rewrite drop_app_length.
  - rewrite length_app, length_replicate. unfold pad. lia.
Qed.

Lemma padding_repeats_last_document_witness :
  exists last_doc last_name names front,
    last (documents (@two_articles_pipeline length_embedder)) = Some last_doc
    /\ drop (@ntotal length_embedder two_articles_index)
         ["Restart the VPN client.";
          "Install the printer driver from the IT portal.";
          "Restart the VPN client."; "Restart the VPN client."]
       = replicate (Z.to_nat 4 - @ntotal length_embedder two_articles_index) last_doc
    /\ length ["Restart the VPN client.";
               "Install the printer driver from the IT portal.";
               "Restart the VPN client."; "Restart the VPN client."] = Z.to_nat 4
    /\ @sorted_txt_listing length_embedder two_articles = Ok names
    /\ last names = Some last_name
    /\ ["vpn.txt"; "printer.txt"; "vpn.txt"; "vpn.txt"]
       = front ++ replicate (Z.to_nat 4 - @ntotal length_embedder two_articles_index)
                    last_name.
Proof.
  apply (@padding_repeats_last_document length_embedder two_articles_pipeline
           two_articles "Printer offline" 4 two_articles_index).
  - reflexivity.
  - reflexivity.
  - reflexivity.
  - reflexivity.
Defined.

(** X12.  [query] never returns more than one source id, whatever the
    state of the object, of the file system and of the endpoint. *)
Theorem query_returns_at_most_one_source {E : Embedder} (flag : bool)
    (self : ServiceDeskRAG) (fs : filesystem) (ep : endpoint) (q : string)
    (answer : json) (sources : list string) (log : list event) :
  query flag self fs ep q [] = (Ok (answer, sources), log) ->
  length sources <= 1.
Proof.
  intros Hq.
  destruct (_retrieve_context self fs q 1) as [[chunks srcs]|e] eqn:Hr.
  2:{ rewrite (query_retrieval_raises flag _ _ ep _ e [] Hr) in Hq. done. }
  destruct (retrieve_lengths _ _ _ _ _ _ Hr) as [Hle Hlen].
  destruct chunks as [|c cs].
  - rewrite (query_without_chunks flag _ _ ep _ _ [] Hr) in Hq.
    injection Hq as <- <- <-. simpl. lia.
  - rewrite (query_generates flag _ _ ep _ _ _ [] Hr) in Hq by done.
    cbn zeta in Hq.
    destruct (_call_gemini_with_backoff flag ep _ _ _ []) as [r log'].
    simpl in Hq. injection Hq as Ho <-.
    destruct Hlen as [?|Hlen]; [done|].
    destruct sources as [|s ss]; [simpl; lia|].
    destruct (outcome_of_sources r srcs (s :: ss) answer Ho) as [-> _]; [done|].
    change (Z.to_nat 1) with 1 in Hlen. lia.
Qed.

Lemma query_returns_at_most_one_source_witness :
  @query length_embedder true two_articles_pipeline two_articles flaky_endpoint
     "My VPN wont connect" []
    = (Ok (JStr "Restart the VPN client.", ["vpn.txt"]),
       snd (@query length_embedder true two_articles_pipeline two_articles
              flaky_endpoint "My VPN wont connect" []))
  /\ length ["vpn.txt"] <= 1.
Proof.
  split; [reflexivity|].
  apply (@query_returns_at_most_one_source length_embedder true
           two_articles_pipeline two_articles flaky_endpoint
           "My VPN wont connect" (JStr "Restart the VPN client.") ["vpn.txt"]
           (snd (@query length_embedder true two_articles_pipeline two_articles
              flaky_endpoint "My VPN wont connect" []))).
  reflexivity.
Defined.

(** ** The generation client, for every endpoint *)

(** The log of the loop: the post/sleep pairs of the retried attempts,
    then nothing more when the iterations are used up, or one last post. *)
Lemma backoff_loop_shape (flag : bool) (ep : endpoint) (payload : json)
    (iterations : nat) (d : Z) (log0 log : list event) (r : result json) :
  backoff_loop flag ep payload iterations d log0 = (r, log) ->
  exists m,
    (m = iterations /\ r = Ok JNull /\ log = log0 ++ backoff_trace payload m d)
    \/ (m < iterations
        /\ log = log0 ++ backoff_trace payload m d ++ [EvPost payload]).
Proof.
  revert d log0. induction iterations as [|it IH]; intros d log0 Hrun.
  - simpl in Hrun. unfold mret, M_ret in Hrun. injection Hrun as <- <-.
    exists 0. left. by rewrite app_nil_r.
  - rewrite backoff_loop_S in Hrun.
    destruct (attempt_result flag (ep (posts log0))) as [[j|]|e].
    + injection Hrun as <- <-. exists 0. right. split; [lia|done].
    + destruct (sleep_error d).
      { injection Hrun as <- <-. exists 0. right. split; [lia|done]. }
      apply IH in Hrun as [m [(Hm & -> & ->)|(Hm & ->)]]; exists (S m).
      * left. split; [by rewrite Hm|]. split; [done|]. by rewrite <- !app_assoc.
      * right. split; [lia|]. by rewrite <- !app_assoc.
    + injection Hrun as <- <-. exists 0. right. split; [lia|done].
Qed.

Lemma sleeps_app (l1 l2 : list event) : sleeps (l1 ++ l2) = sleeps l1 ++ sleeps l2.
Proof. unfold sleeps. apply omap_app. Qed.

Lemma total_sleep_backoff_trace (payload : json) (n : nat) (d : Z) :
  total_sleep (backoff_trace payload n d) = (d * (2 ^ Z.of_nat n - 1))%Z.
Proof.
  revert d. induction n as [|n IH]; intros d.
  - unfold total_sleep. simpl. lia.
  - change (total_sleep (backoff_trace payload (S n) d))
      with (d + total_sleep (backoff_trace payload n (d * 2)))%Z.
    rewrite IH, Nat2Z.inj_succ, Z.pow_succ_r by lia. lia.
Qed.


Lemma Forall_backoff_trace (payload : json) (n : nat) (d : Z) :
  Forall (fun ev => ev = EvPost payload \/ exists s, ev = EvSleep s)
    (backoff_trace payload n d).
Proof.
  revert d. induction n as [|n IH]; intros d; simpl; [constructor|].
  constructor; [by left|]. constructor; [right; by eexists|]. apply IH.
Qed.

(** The loop reads the endpoint at the attempts it makes only. *)
Lemma backoff_loop_ext (flag : bool) (ep1 ep2 : endpoint) (payload : json)
    (iterations : nat) (d : Z) (log : list event) :
  (forall i, posts log <= i < posts log + iterations -> ep1 i = ep2 i) ->
  backoff_loop flag ep1 payload iterations d log
  = backoff_loop flag ep2 payload iterations d log.
Proof.
  revert d log. induction iterations as [|it IH]; intros d log Hag; [done|].
  rewrite !backoff_loop_S. rewrite <- (Hag (posts log)) by lia.
  destruct (attempt_result flag (ep1 (posts log))) as [[j|]|e]; try done.
  destruct (sleep_error d); [done|]. apply IH.
  intros i Hi. rewrite posts_sleep, posts_post in Hi. apply Hag. lia.
Qed.

(** X13.  Whatever the endpoint does, the log of a call of the client is
    made of [m] post/sleep pairs, every post carrying the payload and the
    [i]-th sleep lasting [d * 2^i], followed by nothing when all
    [retries] attempts were used up (the client then returns [None]), or
    by one last post. *)
Theorem backoff_log_shape (flag : bool) (ep : endpoint) (payload : json)
    (retries d : Z) (r : result json) (log : list event) :
  _call_gemini_with_backoff flag ep payload retries d [] = (r, log) ->
  exists m,
    sleeps log = map (fun i => (d * 2 ^ Z.of_nat i)%Z) (seq 0 m)
    /\ Forall (fun ev => ev = EvPost payload \/ exists s, ev = EvSleep s) log
    /\ ((m = Z.to_nat retries /\ r = Ok JNull
         /\ log = backoff_trace payload m d)
        \/ (m < Z.to_nat retries
            /\ log = backoff_trace payload m d ++ [EvPost payload])).
Proof.
  intros Hrun. unfold _call_gemini_with_backoff in Hrun.
  apply backoff_loop_shape in Hrun as [m Hm]. exists m. simpl in Hm.
  destruct Hm as [(-> & -> & ->)|(Hm & ->)].
  - split; [apply sleeps_backoff_trace|].
    split; [apply Forall_backoff_trace|]. by left.
  - split; [|split].
    + rewrite sleeps_app. simpl. rewrite app_nil_r. apply sleeps_backoff_trace.
    + apply Forall_app. split; [apply Forall_backoff_trace|].
      constructor; [by left|constructor].
    + right. done.
Qed.

Lemma backoff_log_shape_witness :
  exists m,
    sleeps (snd (_call_gemini_with_backoff true flaky_endpoint JNull 5 2 []))
      = map (fun i => (2 * 2 ^ Z.of_nat i)%Z) (seq 0 m)
    /\ Forall (fun ev => ev = EvPost JNull \/ exists s, ev = EvSleep s)
         (snd (_call_gemini_with_backoff true flaky_endpoint JNull 5 2 []))
    /\ ((m = Z.to_nat 5
         /\ fst (_call_gemini_with_backoff true flaky_endpoint JNull 5 2 [])
            = Ok JNull
         /\ snd (_call_gemini_with_backoff true flaky_endpoint JNull 5 2 [])
            = backoff_trace JNull m 2)
        \/ (m < Z.to_nat 5
            /\ snd (_call_gemini_with_backoff true flaky_endpoint JNull 5 2 [])
               = backoff_trace JNull m 2 ++ [EvPost JNull])).
Proof.
  apply (backoff_log_shape true flaky_endpoint JNull 5 2). reflexivity.
Defined.



(** ** The query, for every endpoint *)

(** X15.  A 200 response whose body is not JSON, after [n] retried
    attempts: where the library's decode error is not a
    [RequestException], the client stops there and [query] returns the
    canned "error" answer with no source; where it is one, the attempt is
    retried like a failure, so that another post follows if an attempt is
    left. *)
Theorem unparseable_body_handling {E : Embedder} (flag : bool)
    (self : ServiceDeskRAG) (fs : filesystem) (ep : endpoint) (q : string)
    (chunks srcs : list string) (n : nat) :
  _retrieve_context self fs q 1 = Ok (chunks, srcs) ->
  chunks <> [] ->
  n < 5 ->
  (forall i, i < n -> attempt_result flag (ep i) = Ok None) ->
  ep n = HttpResponse 200 None ->
  let payload := make_payload chunks q in
  (flag = false ->
     query flag self fs ep q []
     = (Ok (JStr generation_error, []),
        backoff_trace payload n 2 ++ [EvPost payload]))
  /\ (flag = true -> S n < 5 ->
      S (S n) <= posts (snd (query flag self fs ep q []))).
Proof.
  intros Hr Hne Hn Hfail Hbody payload.
  pose proof (query_generates flag _ _ ep _ _ _ [] Hr Hne) as Hq.
  cbn zeta in Hq. fold payload in Hq. rewrite Hq.
  unfold _call_gemini_with_backoff. change (Z.to_nat default_retries) with 5.
  split.
  - intros ->.
    rewrite (backoff_loop_retried false ep payload n);
      [|lia|unfold default_delay; lia
       |intros ? ?; apply default_delays_within_limit; lia|exact Hfail].
    destruct (5 - n) as [|m] eqn:Hm; [lia|].
    rewrite backoff_loop_S. simpl app.
    rewrite posts_backoff_trace, Hbody. reflexivity.
  - intros -> Hleft.
    rewrite (backoff_loop_retried true ep payload (S n));
      [|lia|unfold default_delay; lia
       |intros ? ?; apply default_delays_within_limit; lia|].
    + destruct (5 - S n) as [|m] eqn:Hm; [lia|].
      rewrite backoff_loop_S, app_nil_l.
      destruct (attempt_result true _) as [[j|]|e]; cbn [snd];
        rewrite ?posts_post, ?posts_backoff_trace; try lia.
      destruct (sleep_error _); cbn [snd];
        rewrite ?posts_post, ?posts_backoff_trace; try lia.
      etransitivity; [|apply backoff_loop_posts_mono].
      rewrite posts_sleep, posts_post, posts_backoff_trace. lia.
    + intros i Hi. simpl. destruct (decide (i = n)) as [->|Hne'].
      * by rewrite Hbody.
      * apply Hfail. lia.
Qed.

Lemma unparseable_body_handling_witness :
  let ep : endpoint := fun _ => HttpResponse 200 None in
  let payload := make_payload ["Restart the VPN client."] "My VPN wont connect" in
  @query length_embedder false two_articles_pipeline two_articles ep
     "My VPN wont connect" []
  = (Ok (JStr generation_error, []), [EvPost payload]).
Proof.
  intros ep payload.
  destruct (@unparseable_body_handling length_embedder false
              two_articles_pipeline two_articles ep "My VPN wont connect"
              ["Restart the VPN client."] ["vpn.txt"] 0) as [H _].
  - reflexivity.
  - discriminate.
  - apply Nat.lt_0_succ.
  - intros i Hi. exfalso. exact (Nat.nlt_0_r i Hi).
  - reflexivity.
  - apply H. reflexivity.
Defined.

(** X16.  Every post of a query carries the same payload, built from the
    one retrieved chunk and the question.  Its system instruction is the
    grounding text with the refusal sentence, and its user turn is the
    text that holds, after "CONTEXT:" and between two rules, the chunk,
    and after "USER QUESTION:" the question, both verbatim. *)
Theorem query_posts_carry_prompt {E : Embedder} (flag : bool)
    (self : ServiceDeskRAG) (fs : filesystem) (ep : endpoint) (q : string)
    (r : result (json * list string)) (log : list event) :
  query flag self fs ep q [] = (r, log) ->
  log <> [] ->
  exists chunk srcs payload,
    _retrieve_context self fs q 1 = Ok ([chunk], srcs)
    /\ Forall (fun ev => ev = EvPost payload \/ exists s, ev = EvSleep s) log
    /\ (exists ev rest, log = ev :: rest /\ ev = EvPost payload)
    /\ user_text payload
       = Ok (JStr ("
        CONTEXT:
        ---
        " ++ chunk ++ "
        ---

        USER QUESTION:
        " ++ q ++ "
        "))
    /\ system_text payload
       = Ok (JStr "You are a helpful and professional IT Service Desk assistant.You must answer the user's question *only* using the context provided.Do not make up information or answer questions not found in the context.If the context does not contain the answer, you MUST say:'I'm sorry, my knowledge base does not have the information to answer this question. Please contact a human IT support agent.'").
Proof.
  intros Hq Hlog.
  destruct (_retrieve_context self fs q 1) as [[chunks srcs]|e] eqn:Hr.
  2:{ rewrite (query_retrieval_raises flag _ _ ep _ e [] Hr) in Hq.
      by injection Hq as <- <-. }
  destruct chunks as [|chunk rest].
  { rewrite (query_without_chunks flag _ _ ep _ _ [] Hr) in Hq.
    by injection Hq as <- <-. }
  destruct (retrieve_lengths _ _ _ _ _ _ Hr) as [_ [?|Hlen]]; [done|].
  destruct rest; [|done].
  exists chunk, srcs, (make_payload [chunk] q). split; [done|].
  rewrite (query_generates flag _ _ ep _ _ _ [] Hr) in Hq by done.
  cbn zeta in Hq.
  destruct (_call_gemini_with_backoff flag ep _ _ _ []) as [r' log'] eqn:Hrun.
  simpl in Hq. injection Hq as <- <-.
  unfold _call_gemini_with_backoff in Hrun.
  apply backoff_loop_shape in Hrun as [m [(_ & _ & ->)|(_ & ->)]];
    rewrite app_nil_l in *.
  - split; [apply Forall_backoff_trace|]. split; [|split; reflexivity].
    destruct m as [|m]; [done|]. simpl. by eexists _, _.
  - split; [|split; [|split; reflexivity]].
    + apply Forall_app. split; [apply Forall_backoff_trace|].
      constructor; [by left|constructor].
    + destruct m as [|m]; simpl; by eexists _, _.
Qed.

Lemma query_posts_carry_prompt_witness :
  exists chunk srcs payload,
    @_retrieve_context length_embedder two_articles_pipeline two_articles
       "My VPN wont connect" 1 = Ok ([chunk], srcs)
    /\ Forall (fun ev => ev = EvPost payload \/ exists s, ev = EvSleep s)
         (snd (@query length_embedder true two_articles_pipeline two_articles
                 flaky_endpoint "My VPN wont connect" []))
    /\ (exists ev rest,
          snd (@query length_embedder true two_articles_pipeline two_articles
                 flaky_endpoint "My VPN wont connect" []) = ev :: rest
          /\ ev = EvPost payload)
    /\ user_text payload
       = Ok (JStr ("
        CONTEXT:
        ---
        " ++ chunk ++ "
        ---

        USER QUESTION:
        " ++ "My VPN wont connect" ++ "
        "))
    /\ system_text payload
       = Ok (JStr "You are a helpful and professional IT Service Desk assistant.You must answer the user's question *only* using the context provided.Do not make up information or answer questions not found in the context.If the context does not contain the answer, you MUST say:'I'm sorry, my knowledge base does not have the information to answer this question. Please contact a human IT support agent.'").
Proof.
  apply (@query_posts_carry_prompt length_embedder true two_articles_pipeline
           two_articles flaky_endpoint "My VPN wont connect"
           (fst (@query length_embedder true two_articles_pipeline two_articles
                   flaky_endpoint "My VPN wont connect" []))).
  - apply surjective_pairing.
  - vm_compute. discriminate.
Defined.

(** X17.  Whatever the endpoint does, a query makes at most five posts
    and sleeps [2, 4, 8, ...] seconds between and after them, at most
    five times and 62 seconds in all. *)
Theorem query_sleeps_bounded {E : Embedder} (flag : bool)
    (self : ServiceDeskRAG) (fs : filesystem) (ep : endpoint) (q : string)
    (r : result (json * list string)) (log : list event) :
  query flag self fs ep q [] = (r, log) ->
  exists m,
    m <= 5
    /\ sleeps log = map (fun i => (2 * 2 ^ Z.of_nat i)%Z) (seq 0 m)
    /\ posts log <= 5
    /\ m <= posts log <= S m
    /\ (total_sleep log <= 62)%Z.
Proof.
  intros Hq.
  assert (Hnone : log = [] -> exists m,
    m <= 5
    /\ sleeps log = map (fun i => (2 * 2 ^ Z.of_nat i)%Z) (seq 0 m)
    /\ posts log <= 5
    /\ m <= posts log <= S m
    /\ (total_sleep log <= 62)%Z).
  { intros ->. exists 0. unfold posts, total_sleep. simpl. repeat split; lia. }
  destruct (_retrieve_context self fs q 1) as [[chunks srcs]|e] eqn:Hr.
  2:{ rewrite (query_retrieval_raises flag _ _ ep _ e [] Hr) in Hq.
      apply Hnone. by injection Hq as <- <-. }
  destruct chunks as [|chunk rest].
  { rewrite (query_without_chunks flag _ _ ep _ _ [] Hr) in Hq.
    apply Hnone. by injection Hq as <- <-. }
  clear Hnone.
  rewrite (query_generates flag _ _ ep _ _ _ [] Hr) in Hq by done.
  cbn zeta in Hq.
  destruct (_call_gemini_with_backoff flag ep _ _ _ []) as [r' log'] eqn:Hrun.
  simpl in Hq. injection Hq as <- <-.
  unfold _call_gemini_with_backoff in Hrun.
  change (Z.to_nat default_retries) with 5 in Hrun.
  assert (Hpow : forall m, m <= 5 -> (2 * (2 ^ Z.of_nat m - 1) <= 62)%Z).
  { intros m Hm.
    assert (2 ^ Z.of_nat m <= 2 ^ 5)%Z by (apply Z.pow_le_mono_r; lia).
    change (2 ^ 5)%Z with 32%Z in *. lia. }
  unfold default_delay in Hrun.
  apply backoff_loop_shape in Hrun as [m [(Hm & _ & ->)|(Hm & ->)]];
    rewrite app_nil_l; exists m.
  - split; [lia|]. split; [apply sleeps_backoff_trace|].
    rewrite posts_backoff_trace. split; [lia|]. split; [lia|].
    rewrite total_sleep_backoff_trace. apply Hpow. lia.
  - split; [lia|]. split.
    { rewrite sleeps_app. simpl. rewrite app_nil_r. apply sleeps_backoff_trace. }
    rewrite posts_post, posts_backoff_trace. split; [lia|]. split; [lia|].
    unfold total_sleep. rewrite sleeps_app. simpl. rewrite app_nil_r.
    fold (total_sleep (backoff_trace (make_payload (chunk :: rest) q) m 2)).
    rewrite total_sleep_backoff_trace. apply Hpow. lia.
Qed.

Lemma query_sleeps_bounded_witness :
  exists m,
    m <= 5
    /\ sleeps (snd (@query length_embedder true two_articles_pipeline
                      two_articles created_endpoint "My VPN wont connect" []))
       = map (fun i => (2 * 2 ^ Z.of_nat i)%Z) (seq 0 m)
    /\ posts (snd (@query length_embedder true two_articles_pipeline
                     two_articles created_endpoint "My VPN wont connect" [])) <= 5
    /\ m <= posts (snd (@query length_embedder true two_articles_pipeline
                     two_articles created_endpoint "My VPN wont connect" [])) <= S m
    /\ (total_sleep (snd (@query length_embedder true two_articles_pipeline
                     two_articles created_endpoint "My VPN wont connect" [])) <= 62)%Z.
Proof.
  apply (@query_sleeps_bounded length_embedder true two_articles_pipeline
           two_articles created_endpoint "My VPN wont connect"
           (fst (@query length_embedder true two_articles_pipeline two_articles
                   created_endpoint "My VPN wont connect" []))).
  reflexivity.
Defined.

(** X18.  The result and the log of a query depend on the endpoint
    through its first five outcomes only: two endpoints that agree on the
    posts 0 to 4 give the same run. *)
Theorem query_reads_five_outcomes {E : Embedder} (flag : bool)
    (self : ServiceDeskRAG) (fs : filesystem) (ep1 ep2 : endpoint) (q : string) :
  (forall i, i < 5 -> ep1 i = ep2 i) ->
  query flag self fs ep1 q [] = query flag self fs ep2 q [].
Proof.
  intros Hag.
  destruct (_retrieve_context self fs q 1) as [[chunks srcs]|e] eqn:Hr.
  2:{ by rewrite !(query_retrieval_raises flag _ _ _ _ e [] Hr). }
  destruct chunks as [|chunk rest].
  { by rewrite !(query_without_chunks flag _ _ _ _ _ [] Hr). }
  rewrite !(query_generates flag _ _ _ _ _ _ [] Hr) by done. cbn zeta.
  unfold _call_gemini_with_backoff.
  rewrite (backoff_loop_ext flag ep1 ep2); [done|].
  intros i [_ Hi]. apply Hag. exact Hi.
Qed.

Lemma query_reads_five_outcomes_witness :
  let ep2 : endpoint := fun n => if (n <? 5)%nat then flaky_endpoint n
                                 else ConnectionFailed in
  @query length_embedder true two_articles_pipeline two_articles flaky_endpoint
     "My VPN wont connect" []
  = @query length_embedder true two_articles_pipeline two_articles ep2
      "My VPN wont connect" [].
Proof.
  intros ep2.
  apply (@query_reads_five_outcomes length_embedder true two_articles_pipeline
           two_articles flaky_endpoint ep2 "My VPN wont connect").
  intros i Hi. unfold ep2. apply Nat.ltb_lt in Hi. rewrite Hi. reflexivity.
Defined.

(** X19.  What [query] makes of the value the client hands back, when it
    is not a body with candidates:
    - a falsy value ([None], an empty object, list or string, zero,
      [false]) gives the "invalid response" answer;
    - a truthy value that is not an object (it has no [get]) gives the
      "error" answer;
    - a non-empty object whose [candidates] entry is missing or falsy
      gives the "invalid response" answer;
    - an exception of the client gives the "error" answer;
    each time with an empty source list. *)
Theorem degraded_answer_classification (j : json) (srcs : list string) :
  (truthy j = false -> outcome_of (Ok j) srcs = (JStr invalid_response, []))
  /\ (truthy j = true -> (forall items, j <> JObj items) ->
      outcome_of (Ok j) srcs = (JStr generation_error, []))
  /\ (forall items,
        j = JObj items -> items <> [] ->
        match assoc "candidates" items with
        | None => True
        | Some cands => truthy cands = false
        end ->
        outcome_of (Ok j) srcs = (JStr invalid_response, []))
  /\ (forall e, outcome_of (Raise e) srcs = (JStr generation_error, [])).
Proof.
  split; [|split; [|split]].
  - intros Hf. apply (outcome_of_no_candidates j j); [|done].
    unfold candidates_of. by rewrite Hf.
  - intros Ht Hobj. unfold outcome_of, answer_of, candidates_of. simpl.
    rewrite Ht. destruct j; try done. by destruct (Hobj items).
  - intros items -> Hne Hc.
    destruct (assoc "candidates" items) as [cands|] eqn:Ha.
    + apply (outcome_of_no_candidates _ cands); [|done].
      unfold candidates_of. destruct items; [done|]. simpl truthy. cbv iota.
      unfold py_get. by rewrite Ha.
    + apply (outcome_of_no_candidates _ JNull); [|done].
      unfold candidates_of. destruct items; [done|]. simpl truthy. cbv iota.
      unfold py_get. by rewrite Ha.
  - done.
Qed.

Lemma degraded_answer_classification_witness :
  outcome_of (Ok JNull) ["vpn.txt"] = (JStr invalid_response, [])
  /\ outcome_of (Ok (JArr [JStr "text"])) ["vpn.txt"] = (JStr generation_error, [])
  /\ outcome_of (Ok (JObj [("candidates", JArr [])])) ["vpn.txt"]
     = (JStr invalid_response, []).
Proof.
  split; [|split].
  - apply (degraded_answer_classification JNull ["vpn.txt"]). reflexivity.
  - destruct (degraded_answer_classification (JArr [JStr "text"]) ["vpn.txt"])
      as (_ & H & _).
    apply H; [reflexivity|]. intros items Heq. discriminate Heq.
  - destruct (degraded_answer_classification (JObj [("candidates", JArr [])])
                ["vpn.txt"]) as (_ & _ & H & _).
    apply (H [("candidates", JArr [])]); [reflexivity|discriminate|reflexivity].
Defined.

(** X20.  When the first attempt returns 200 with a body of the expected
    shape, [query] makes that single post, sleeps not at all, and returns
    the text of the first part of the first candidate, whatever it is
    (it is not checked to be a string), with the retrieved source ids;
    further parts, further candidates and other keys of the body are not
    looked at. *)
Theorem first_candidate_first_part_wins {E : Embedder} (flag : bool)
    (self : ServiceDeskRAG) (fs : filesystem) (ep : endpoint) (q : string)
    (chunks srcs : list string) (answer : json) (parts cands : list json)
    (keys : list (string * json)) :
  _retrieve_context self fs q 1 = Ok (chunks, srcs) ->
  chunks <> [] ->
  ep 0 = HttpResponse 200 (Some (body_with answer parts cands keys)) ->
  query flag self fs ep q []
  = (Ok (answer, srcs), [EvPost (make_payload chunks q)]).
Proof.
  intros Hr Hne Hep.
  rewrite (query_generates flag _ _ ep _ _ _ [] Hr Hne). cbn zeta.
  unfold _call_gemini_with_backoff. change (Z.to_nat default_retries) with 5.
  rewrite backoff_loop_S. change (posts []) with 0. rewrite Hep. reflexivity.
Qed.

Lemma first_candidate_first_part_wins_witness :
  let ep : endpoint := fun _ =>
    HttpResponse 200
      (Some (body_with (JNum 42) [JObj [("text", JStr "second part")]]
               [JStr "second candidate"] [("usageMetadata", JObj [])])) in
  @query length_embedder true two_articles_pipeline two_articles ep
     "My VPN wont connect" []
  = (Ok (JNum 42, ["vpn.txt"]),
     [EvPost (make_payload ["Restart the VPN client."] "My VPN wont connect")]).
Proof.
  intros ep.
  apply (@first_candidate_first_part_wins length_embedder true
           two_articles_pipeline two_articles ep "My VPN wont connect"
           ["Restart the VPN client."] ["vpn.txt"] (JNum 42)
           [JObj [("text", JStr "second part")]] [JStr "second candidate"]
           [("usageMetadata", JObj [])]).
  - reflexivity.
  - discriminate.
  - reflexivity.
Defined.

(** ** The chat page *)

(** X21.  A submitted question is recorded before the pipeline is asked.
    When [query] returns, the history is the previous one followed by the
    question and the answer, in that order; the source ids are shown but
    not kept in the history.  When [query] raises, the run ends with the
    question recorded and no answer after it. *)
Theorem chat_turn_history {E : Embedder} (flag : bool)
    (rag_pipeline : ServiceDeskRAG) (fs : filesystem) (ep : endpoint)
    (session : option (list message)) (p : string) :
  p <> "" ->
  let before := messages (display_history session) in
  let user := {| role := "user"; content := JStr p |} in
  match query flag rag_pipeline fs ep p [] with
  | (Ok (answer, sources), log) =>
      exists pg,
        run_page flag rag_pipeline fs ep session (Some p) = (Ok tt, pg, log)
        /\ messages pg
           = before ++ [user; {| role := "assistant"; content := answer |}]
        /\ screen pg
           = screen (display_history session)
             ++ Markdown "user" (JStr p) :: display_answer answer sources
  | (Raise e, log) =>
      exists pg,
        run_page flag rag_pipeline fs ep session (Some p) = (Raise e, pg, log)
        /\ messages pg = before ++ [user]
  end.
Proof.
  intros Hp before user. unfold run_page, handle_user_input.
  destruct (String.eqb p "") eqn:Heq; [by apply String.eqb_eq in Heq|].
  destruct (query flag rag_pipeline fs ep p []) as [[[answer sources]|e] log].
  - eexists. split; [reflexivity|]. simpl. by rewrite <- !app_assoc.
  - eexists. split; [reflexivity|]. done.
Qed.

Lemma chat_turn_history_witness :
  exists pg log,
    @run_page length_embedder true two_articles_pipeline two_articles
       flaky_endpoint None (Some "My VPN wont connect") = (Ok tt, pg, log)
    /\ messages pg
       = [greeting;
          {| role := "user"; content := JStr "My VPN wont connect" |};
          {| role := "assistant"; content := JStr "Restart the VPN client." |}].
Proof.
  pose proof (@chat_turn_history length_embedder true two_articles_pipeline
                two_articles flaky_endpoint None "My VPN wont connect") as H.
  assert (Hne : "My VPN wont connect" <> "") by discriminate.
  specialize (H Hne). cbv zeta in H.
  assert (Hq : @query length_embedder true two_articles_pipeline two_articles
                 flaky_endpoint "My VPN wont connect" []
               = (Ok (JStr "Restart the VPN client.", ["vpn.txt"]),
                  snd (@query length_embedder true two_articles_pipeline
                         two_articles flaky_endpoint "My VPN wont connect" [])))
    by (vm_compute; reflexivity).
  rewrite Hq in H. destruct H as (pg & Hrun & Hmsgs & _).
  exists pg. eexists. split; [exact Hrun|exact Hmsgs].
Defined.



(** ** Source ids and the current directory (C10) *)

(** C10, as stated, fails: different directory contents do not always
    give different source ids.  With the same loaded index and documents,
    the retrieval returns the same source id before and after an article
    that sorts after the others is added to the directory. *)
Lemma sources_unchanged_after_last_file_added :
  @knowledge_base length_embedder (persisted (Some two_articles_dir))
    <> @knowledge_base length_embedder last_article_added
  /\ @sorted_txt_listing length_embedder last_article_added
     = Ok ["printer.txt"; "vpn.txt"; "wifi.txt"]
  /\ @_retrieve_context length_embedder two_articles_pipeline
       (persisted (Some two_articles_dir)) "My VPN wont connect" 1
     = Ok (["Restart the VPN client."], ["vpn.txt"])
  /\ @_retrieve_context length_embedder two_articles_pipeline
       last_article_added "My VPN wont connect" 1
     = Ok (["Restart the VPN client."], ["vpn.txt"]).
Proof.
  split; [|repeat split; vm_compute; reflexivity].
  intros H.
  apply (f_equal (fun o : option (gmap string string) =>
                    match o with
                    | Some m => m !! "wifi.txt"
                    | None => None
                    end)) in H.
  vm_compute in H. discriminate H.
Qed.

Lemma source_files_in_listing (names : list string) (labels : list Z)
    (sources : list string) :
  source_files names labels = Ok sources -> Forall (fun s => s ∈ names) sources.
Proof.
  unfold source_files. intros H%comprehension_Forall2.
  apply Forall_forall. intros s Hs.
  apply list_elem_of_lookup in Hs as [n Hn].
  destruct (Forall2_lookup_r _ _ _ _ _ H Hn) as (i & _ & Hg).
  apply py_getitem_Ok in Hg as [_ Hg]. by eapply list_elem_of_lookup_2.
Qed.

(** C10, amended.  The source ids are computed from the listing of the
    directory as it is when the retrieval runs, not from the persisted
    artifacts.  For two retrievals by the same object (same index, same
    documents) with the same query and [k], under two states of the file
    system:
    - the chunks are the same;
    - equal listings give equal source lists;
    - each source list is the comprehension over the labels of the search
      and the sorted listing of its own file system, and every source id
      is a name of that directory ending in [.txt];
    - as soon as one returned label, below the length of both listings,
      names different files in the two listings, the two source lists
      differ. *)
Theorem sources_follow_current_listing {E : Embedder} (self : ServiceDeskRAG)
    (q : string) (k : Z) (fs1 fs2 : filesystem)
    (chunks1 sources1 chunks2 sources2 : list string) :
  _retrieve_context self fs1 q k = Ok (chunks1, sources1) ->
  _retrieve_context self fs2 q k = Ok (chunks2, sources2) ->
  chunks1 = chunks2
  /\ (sorted_txt_listing fs1 = sorted_txt_listing fs2 -> sources1 = sources2)
  /\ (forall ix,
        index self = Some (Some ix) ->
        exists labels names1 names2 dir1 dir2,
          search ix (encode q) k = Ok labels
          /\ knowledge_base fs1 = Some dir1
          /\ knowledge_base fs2 = Some dir2
          /\ sorted_txt_listing fs1 = Ok names1
          /\ sorted_txt_listing fs2 = Ok names2
          /\ source_files names1 labels = Ok sources1
          /\ source_files names2 labels = Ok sources2
          /\ Forall (fun s => is_Some (dir1 !! s) /\ endswith s ".txt" = true)
               sources1
          /\ Forall (fun s => is_Some (dir2 !! s) /\ endswith s ".txt" = true)
               sources2
          /\ ((exists i,
                 i ∈ labels
                 /\ (i < Z.of_nat (length names1))%Z
                 /\ (i < Z.of_nat (length names2))%Z
                 /\ py_getitem names1 i <> py_getitem names2 i) ->
              sources1 <> sources2)).
Proof.
  intros H1 H2.
  assert (Hsame_listing :
    sorted_txt_listing fs1 = sorted_txt_listing fs2 -> sources1 = sources2).
  { intros Hl. rewrite (retrieve_depends_on_listing self fs1 fs2 q k Hl) in H1.
    congruence. }
  apply retrieve_inv in H1
    as [(Hnone & -> & ->)|(ix & labels & names1 & Hix & Hs & Hc1 & Hn1 & Hsrc1)];
  apply retrieve_inv in H2
    as [(Hnone' & -> & ->)|(ix' & labels' & names2 & Hix' & Hs' & Hc2 & Hn2 & Hsrc2)];
  try congruence.
  { split; [done|]. split; [done|]. intros ix Hix. congruence. }
  assert (ix' = ix) as -> by congruence.
  assert (labels' = labels) as -> by congruence.
  split; [congruence|]. split; [exact Hsame_listing|].
  intros ix0 Hix0. assert (ix0 = ix) as -> by congruence.
  destruct (knowledge_base fs1) as [dir1|] eqn:Hd1.
  2:{ unfold sorted_txt_listing, listdir in Hn1. by rewrite Hd1 in Hn1. }
  destruct (knowledge_base fs2) as [dir2|] eqn:Hd2.
  2:{ unfold sorted_txt_listing, listdir in Hn2. by rewrite Hd2 in Hn2. }
  exists labels, names1, names2, dir1, dir2. do 7 (split; [done|]).
  split; [|split].
  - eapply Forall_impl; [exact (source_files_in_listing _ _ _ Hsrc1)|].
    intros s Hs1. by apply (elem_of_sorted_txt_listing fs1 dir1 names1 s Hd1 Hn1).
  - eapply Forall_impl; [exact (source_files_in_listing _ _ _ Hsrc2)|].
    intros s Hs2. by apply (elem_of_sorted_txt_listing fs2 dir2 names2 s Hd2 Hn2).
  - intros (i & Hi & Hi1 & Hi2 & Hdiff) ->. apply Hdiff. clear Hdiff.
    unfold source_files in Hsrc1, Hsrc2.
    set (n1 := Z.of_nat (length names1)) in *.
    set (n2 := Z.of_nat (length names2)) in *.
    pose proof (comprehension_length _ _ _ Hsrc1) as Hl1.
    pose proof (comprehension_length _ _ _ Hsrc2) as Hl2.
    assert (Hsame : List.filter (fun i => (i <? n1)%Z) labels
                    = List.filter (fun i => (i <? n2)%Z) labels).
    { destruct (Z.le_ge_cases n1 n2) as [Hle|Hle].
      - rewrite <- (filter_filter_lt n1 n2) by done.
        apply filter_same_length. rewrite filter_filter_lt by done. lia.
      - symmetry. rewrite <- (filter_filter_lt n2 n1) by done.
        apply filter_same_length. rewrite filter_filter_lt by done. lia. }
    rewrite <- Hsame in Hsrc2.
    eapply comprehension_agree; [exact Hsrc1|exact Hsrc2|].
    apply list_elem_of_In, List.filter_In. split; [by apply list_elem_of_In|].
    by apply Z.ltb_lt.
Qed.

Lemma sources_follow_current_listing_witness :
  @_retrieve_context length_embedder two_articles_pipeline
     (persisted (Some two_articles_dir)) "My VPN wont connect" 1
    = Ok (["Restart the VPN client."], ["vpn.txt"])
  /\ @_retrieve_context length_embedder two_articles_pipeline article_added
       "My VPN wont connect" 1
     = Ok (["Restart the VPN client."], ["printer.txt"])
  /\ @vector_store_file length_embedder (persisted (Some two_articles_dir))
     = @vector_store_file length_embedder article_added
  /\ @documents_file length_embedder (persisted (Some two_articles_dir))
     = @documents_file length_embedder article_added
  /\ ["vpn.txt"] <> ["printer.txt"].
Proof.
  split; [reflexivity|]. split; [reflexivity|].
  split; [reflexivity|]. split; [reflexivity|].
  destruct (@sources_follow_current_listing length_embedder
              two_articles_pipeline "My VPN wont connect" 1
              (persisted (Some two_articles_dir)) article_added
              ["Restart the VPN client."] ["vpn.txt"]
              ["Restart the VPN client."] ["printer.txt"])
    as (_ & _ & H).
  - reflexivity.
  - reflexivity.
  - destruct (H two_articles_index)
      as (labels & names1 & names2 & dir1 & dir2 & Hs & _ & _ & Hn1 & Hn2
          & _ & _ & _ & _ & Hdiff);
      [reflexivity|].
    apply Hdiff. exists 1%Z.
    vm_compute in Hs. vm_compute in Hn1. vm_compute in Hn2.
    injection Hs as <-. injection Hn1 as <-. injection Hn2 as <-.
    split; [apply list_elem_of_here|].
    split; [reflexivity|]. split; [reflexivity|].
    vm_compute. discriminate.
Defined.
